(** * The Amazon order-history to YNAB pipeline, embedded in Rocq

    The development follows the two scripts of the repository:
    - [amazon_csv_to_ynab.py]: column resolution, date and amount
      normalisation, sign convention, intra-batch deduplication;
    - [ynab_import.py]: re-parsing of the converted file, the amount-indexed
      ledger index, duplicate classification and submission.

    Python [str] values are lists of characters whose code points are below
    256 ([ascii]); Python [float] is IEEE binary64, taken from the Standard
    Library's [SpecFloat]; [dict]s keyed by integers are [gmap]s. *)

From stdpp Require Import gmap list strings.
From Stdlib Require Import ZArith Ascii String Bool Lia.
From Stdlib Require Import Floats.SpecFloat.

Local Open Scope Z_scope.
Local Open Scope list_scope.

(** ** Python strings *)

Abbreviation str := (list ascii).

Definition lit (s : string) : str := list_ascii_of_string s.

Definition code (c : ascii) : Z := Z.of_N (N_of_ascii c).

Definition chr (n : Z) : ascii := ascii_of_N (Z.to_N n).

(** [str.isspace] on code points below 256; the same set is [\s] of [re] and
    what [str.strip()] removes. *)
Definition is_space (c : ascii) : bool :=
  let n := code c in
  ((9 <=? n) && (n <=? 13)) || ((28 <=? n) && (n <=? 32))
  || (n =? 133) || (n =? 160).

(** [\d] of [re] on code points below 256. *)
Definition is_digit (c : ascii) : bool :=
  let n := code c in (48 <=? n) && (n <=? 57).

Definition digit_val (c : ascii) : Z := code c - 48.

Definition digit_char (n : Z) : ascii := chr (48 + n).

(** [str.lower] on one code point below 256: A-Z and the Latin-1 capitals. *)
Definition lower_char (c : ascii) : ascii :=
  let n := code c in
  if ((65 <=? n) && (n <=? 90))
     || ((192 <=? n) && (n <=? 222) && negb (n =? 215))
  then chr (n + 32) else c.

Definition lower (s : str) : str := map lower_char s.

Fixpoint lstrip (s : str) : str :=
  match s with
  | c :: r => if is_space c then lstrip r else s
  | [] => []
  end.

Definition rstrip (s : str) : str := rev (lstrip (rev s)).

Definition strip (s : str) : str := rstrip (lstrip s).

Fixpoint starts_with (p s : str) : bool :=
  match p, s with
  | [], _ => true
  | a :: p', b :: s' => Ascii.eqb a b && starts_with p' s'
  | _ :: _, [] => false
  end.

(** [sub in s] *)
Fixpoint contains (sub s : str) : bool :=
  starts_with sub s
  || match s with
     | [] => false
     | _ :: r => contains sub r
     end.

(** [s.replace(old, new)]: leftmost, non-overlapping occurrences; [skip]
    counts the characters of an occurrence still to be dropped. *)
Fixpoint replace_from (old new : str) (skip : nat) (s : str) : str :=
  match s with
  | [] => []
  | c :: r =>
      match skip with
      | S k => replace_from old new k r
      | O =>
          if starts_with old s
          then new ++ replace_from old new (Nat.pred (List.length old)) r
          else c :: replace_from old new 0 r
      end
  end.

Definition replace (old new s : str) : str :=
  match old with
  | [] => new ++ flat_map (fun c => c :: new) s
  | _ :: _ => replace_from old new 0 s
  end.

(** [s[:n]] *)
Definition slice_to (n : nat) (s : str) : str := firstn n s.

(** [s.zfill(n)] for an unsigned [s]. *)
Definition zfill (n : nat) (s : str) : str :=
  repeat "0"%char (n - List.length s)%nat ++ s.

Definition str_eqb (a b : str) : bool := bool_decide (a = b).

(** ** Calendar dates ([datetime.date]) *)

Record date := mkdate { year : Z; month : Z; day : Z }.

Definition is_leap (y : Z) : bool :=
  (y mod 4 =? 0) && (negb (y mod 100 =? 0) || (y mod 400 =? 0)).

Definition days_in_month (y m : Z) : Z :=
  match m with
  | 1 => 31 | 2 => if is_leap y then 29 else 28 | 3 => 31 | 4 => 30
  | 5 => 31 | 6 => 30 | 7 => 31 | 8 => 31 | 9 => 30 | 10 => 31
  | 11 => 30 | 12 => 31
  | _ => 0
  end.

(** The checks of the [date] constructor: a failure is a [ValueError]. *)
Definition valid_date (y m d : Z) : bool :=
  (1 <=? y) && (y <=? 9999) && (1 <=? m) && (m <=? 12)
  && (1 <=? d) && (d <=? days_in_month y m).

Definition days_before_year (y : Z) : Z :=
  let p := y - 1 in p * 365 + p / 4 - p / 100 + p / 400.

Definition days_before_month (y m : Z) : Z :=
  match m with
  | 1 => 0 | 2 => 31 | 3 => 59 | 4 => 90 | 5 => 120 | 6 => 151 | 7 => 181
  | 8 => 212 | 9 => 243 | 10 => 273 | 11 => 304 | 12 => 334
  | _ => 0
  end + (if (2 <? m) && is_leap y then 1 else 0).

Definition toordinal (d : date) : Z :=
  days_before_year (year d) + days_before_month (year d) (month d) + day d.

(** [(a - b).days] *)
Definition days_between (a b : date) : Z := toordinal a - toordinal b.

(** [a < b] on dates: the comparison of (year, month, day). *)
Definition date_ltb (a b : date) : bool :=
  (year a <? year b)
  || ((year a =? year b)
      && ((month a <? month b)
          || ((month a =? month b) && (day a <? day b)))).

Definition zpad2 (n : Z) : str := [digit_char (n / 10); digit_char (n mod 10)].

Definition zpad4 (n : Z) : str :=
  [digit_char (n / 1000); digit_char (n / 100 mod 10);
   digit_char (n / 10 mod 10); digit_char (n mod 10)].

(** [%Y] of [strftime]: the C library decides whether a year below 1000 is
    padded to four digits; [pad_year] says which. *)
Definition year_str (pad_year : bool) (y : Z) : str :=
  if pad_year || (1000 <=? y) then zpad4 y
  else if 100 <=? y then
         [digit_char (y / 100); digit_char (y / 10 mod 10); digit_char (y mod 10)]
  else if 10 <=? y then [digit_char (y / 10); digit_char (y mod 10)]
  else [digit_char y].

(** The month names of the C locale ([calendar.month_abbr] and
    [calendar.month_name]). *)
Definition month_abbr : list str :=
  map lit ["Jan"; "Feb"; "Mar"; "Apr"; "May"; "Jun";
           "Jul"; "Aug"; "Sep"; "Oct"; "Nov"; "Dec"]%string.

Definition month_name : list str :=
  map lit ["January"; "February"; "March"; "April"; "May"; "June"; "July";
           "August"; "September"; "October"; "November"; "December"]%string.

(** [d.strftime(fmt)] for the directives the pipeline uses. *)
Definition strftime_directive (pad_year : bool) (c : ascii) (d : date) : str :=
  if Ascii.eqb c "Y" then year_str pad_year (year d)
  else if Ascii.eqb c "m" then zpad2 (month d)
  else if Ascii.eqb c "d" then zpad2 (day d)
  else if Ascii.eqb c "b" then nth (Z.to_nat (month d - 1)) month_abbr []
  else if Ascii.eqb c "B" then nth (Z.to_nat (month d - 1)) month_name []
  else ["%"%char; c].

Fixpoint strftime (pad_year : bool) (fmt : str) (d : date) : str :=
  match fmt with
  | [] => []
  | c :: r =>
      if Ascii.eqb c "%" then
        match r with
        | x :: r' => strftime_directive pad_year x d ++ strftime pad_year r' d
        | [] => [c]
        end
      else c :: strftime pad_year r d
  end.

Definition ISO_FORMAT : str := lit "%Y-%m-%d".

(** [d.strftime("%Y-%m-%d")] *)
Definition strftime_ymd (pad_year : bool) (d : date) : str :=
  strftime pad_year ISO_FORMAT d.

(** [d.isoformat()]: always four year digits. *)
Definition isoformat (d : date) : str :=
  zpad4 (year d) ++ "-"%char :: zpad2 (month d) ++ "-"%char :: zpad2 (day d).

(** ** Backtracking matchers

    A pattern maps the input to the list of its matches, in the order the
    backtracking engine of [re] tries them; the head of the list is the
    match [re] reports. *)

Definition re (A : Type) : Type := str -> list (A * str).

Definition re_ret {A} (x : A) : re A := fun s => [(x, s)].

Definition re_bind {A B} (p : re A) (f : A -> re B) : re B :=
  fun s => flat_map (fun ar => f (fst ar) (snd ar)) (p s).

Definition re_alts {A} (ps : list (re A)) : re A :=
  fun s => flat_map (fun p => p s) ps.

Definition re_char (f : ascii -> bool) : re ascii :=
  fun s =>
    match s with
    | c :: r => if f c then [(c, r)] else []
    | [] => []
    end.

Definition re_one (f : ascii -> bool) : re str :=
  re_bind (re_char f) (fun c => re_ret [c]).

Definition re_two (f g : ascii -> bool) : re str :=
  re_bind (re_char f) (fun a => re_bind (re_char g) (fun b => re_ret [a; b])).

Definition is_char (a c : ascii) : bool := Ascii.eqb a c.

Definition in_range (lo hi c : ascii) : bool :=
  (code lo <=? code c) && (code c <=? code hi).

(** A literal word under [re.IGNORECASE]; the match is the input's text. *)
Fixpoint re_word (w : str) : re str :=
  match w with
  | [] => re_ret []
  | a :: w' =>
      re_bind (re_char (fun c => Ascii.eqb (lower_char c) (lower_char a)))
        (fun c => re_bind (re_word w') (fun r => re_ret (c :: r)))
  end.

(** [\s*] and [\s+], greedy: the longest run first. *)
Fixpoint re_ws_star (s : str) : list (unit * str) :=
  match s with
  | c :: r => if is_space c then re_ws_star r ++ [(tt, s)] else [(tt, s)]
  | [] => [(tt, [])]
  end.

Definition re_ws_plus : re unit :=
  fun s =>
    match s with
    | c :: r => if is_space c then re_ws_star r else []
    | [] => []
    end.

(** [re.search]: the first start position with a match. *)
Fixpoint re_search {A} (p : re A) (s : str) : option A :=
  match p s with
  | (a, _) :: _ => Some a
  | [] =>
      match s with
      | [] => None
      | _ :: r => re_search p r
      end
  end.

(** ** [datetime.strptime]

    The directive patterns are those of [_strptime.TimeRE]; the month names
    are those of the C locale, lowercased, the full names in the order
    [TimeRE] sorts them (longest first). *)

Definition re_d : re str :=
  re_alts [ re_two (is_char "3") (in_range "0" "1");
            re_two (in_range "1" "2") is_digit;
            re_two (is_char "0") (in_range "1" "9");
            re_one (in_range "1" "9");
            re_two (is_char " ") (in_range "1" "9") ].

Definition re_m : re str :=
  re_alts [ re_two (is_char "1") (in_range "0" "2");
            re_two (is_char "0") (in_range "1" "9");
            re_one (in_range "1" "9") ].

Definition re_Y : re str :=
  re_bind (re_char is_digit) (fun a =>
  re_bind (re_char is_digit) (fun b =>
  re_bind (re_char is_digit) (fun c =>
  re_bind (re_char is_digit) (fun d => re_ret [a; b; c; d])))).

(** The tables of [LocaleTime]: the names in lower case. *)
Definition a_month : list str := map lower month_abbr.

Definition f_month : list str := map lower month_name.

Definition f_month_by_length : list str :=
  map lit ["september"; "february"; "november"; "december"; "january";
           "october"; "august"; "march"; "april"; "june"; "july"; "may"]%string.

Definition re_b : re str := re_alts (map re_word a_month).

Definition re_B : re str := re_alts (map re_word f_month_by_length).

(** [names.index(x)] counted from 1 (the tables of [LocaleTime] start with an
    empty name at index 0). *)
Fixpoint month_index (names : list str) (x : str) : option Z :=
  match names with
  | [] => None
  | n :: rest =>
      if str_eqb n x then Some 1
      else option_map Z.succ (month_index rest x)
  end.

Inductive fmt_item : Type :=
| FmtY | Fmtm | Fmtd | Fmtb | FmtB
| FmtWs
| FmtLit (c : ascii)
| FmtBad.

(** [TimeRE.pattern]: a run of white space in the format becomes [\s+], a
    directive becomes its pattern, anything else matches itself. *)
Definition directive (d : ascii) : fmt_item :=
  if Ascii.eqb d "Y" then FmtY
  else if Ascii.eqb d "m" then Fmtm
  else if Ascii.eqb d "d" then Fmtd
  else if Ascii.eqb d "b" then Fmtb
  else if Ascii.eqb d "B" then FmtB
  else FmtBad.

Fixpoint parse_format (after_ws : bool) (f : str) : list fmt_item :=
  match f with
  | [] => []
  | c :: r =>
      if is_space c then
        if after_ws then parse_format true r else FmtWs :: parse_format true r
      else if Ascii.eqb c "%" then
        match r with
        | d :: r' => directive d :: parse_format false r'
        | [] => [FmtBad]
        end
      else FmtLit c :: parse_format false r
  end.

(** The named groups of a match. *)
Record groups := mkgroups {
  gY : option str; gm : option str; gd : option str;
  gb : option str; gB : option str }.

Definition no_groups : groups := mkgroups None None None None None.

Definition re_item (it : fmt_item) (g : groups) : re groups :=
  match it with
  | FmtY => re_bind re_Y (fun t => re_ret (mkgroups (Some t) (gm g) (gd g) (gb g) (gB g)))
  | Fmtm => re_bind re_m (fun t => re_ret (mkgroups (gY g) (Some t) (gd g) (gb g) (gB g)))
  | Fmtd => re_bind re_d (fun t => re_ret (mkgroups (gY g) (gm g) (Some t) (gb g) (gB g)))
  | Fmtb => re_bind re_b (fun t => re_ret (mkgroups (gY g) (gm g) (gd g) (Some t) (gB g)))
  | FmtB => re_bind re_B (fun t => re_ret (mkgroups (gY g) (gm g) (gd g) (gb g) (Some t)))
  | FmtWs => re_bind re_ws_plus (fun _ => re_ret g)
  | FmtLit c => re_bind (re_word [c]) (fun _ => re_ret g)
  | FmtBad => fun _ => []
  end.

Fixpoint re_format (items : list fmt_item) (g : groups) : re groups :=
  match items with
  | [] => re_ret g
  | it :: rest => re_bind (re_item it g) (re_format rest)
  end.

(** [int(text)] for the text of a numeric group: digits, possibly after a
    blank (the last alternative of the day pattern). *)
Definition group_int (t : str) : Z :=
  fold_left (fun acc c => if is_digit c then 10 * acc + digit_val c else acc) t 0.

(** The year, month and day [_strptime] reads from the groups (defaults
    1900, 1, 1), handed to the [date] constructor. *)
Definition date_of_groups (g : groups) : option date :=
  let y := match gY g with Some t => group_int t | None => 1900 end in
  let m :=
    match gm g, gB g, gb g with
    | Some t, _, _ => Some (group_int t)
    | None, Some t, _ => month_index f_month (lower t)
    | None, None, Some t => month_index a_month (lower t)
    | None, None, None => Some 1
    end in
  let d := match gd g with Some t => group_int t | None => 1 end in
  match m with
  | Some m => if valid_date y m d then Some (mkdate y m d) else None
  | None => None
  end.

(** [datetime.strptime(s, fmt)]; [None] is a [ValueError]: no match,
    unconverted data after the match, or an impossible calendar date. *)
Definition strptime (s fmt : str) : option date :=
  match re_format (parse_format false fmt) no_groups s with
  | (g, []) :: _ => date_of_groups g
  | (_, _ :: _) :: _ => None
  | [] => None
  end.

(** ** [amazon_csv_to_ynab._parse_date] *)

Definition date_formats : list str :=
  map lit ["%Y-%m-%d"; "%m/%d/%Y"; "%d/%m/%Y"; "%b %d, %Y"; "%B %d, %Y";
           "%d %b %Y"; "%d %B %Y"]%string.

(** The loop over the formats: the first that parses wins. *)
Fixpoint first_format (s : str) (fmts : list str) : option date :=
  match fmts with
  | [] => None
  | fmt :: rest =>
      match strptime s fmt with
      | Some d => Some d
      | None => first_format s rest
      end
  end.

Definition re_digits2 : re str := re_two is_digit is_digit.

Definition re_digits12 : re str := re_alts [re_two is_digit is_digit; re_one is_digit].

(** [(\d{4})-(\d{2})-(\d{2})] *)
Definition re_iso_like : re (str * str * str) :=
  re_bind re_Y (fun a =>
  re_bind (re_char (is_char "-")) (fun _ =>
  re_bind re_digits2 (fun b =>
  re_bind (re_char (is_char "-")) (fun _ =>
  re_bind re_digits2 (fun c => re_ret (a, b, c)))))).

(** [(\d{1,2})/(\d{1,2})/(\d{4})] *)
Definition re_us_like : re (str * str * str) :=
  re_bind re_digits12 (fun a =>
  re_bind (re_char (is_char "/")) (fun _ =>
  re_bind re_digits12 (fun b =>
  re_bind (re_char (is_char "/")) (fun _ =>
  re_bind re_Y (fun c => re_ret (a, b, c)))))).

Definition dash : ascii := "-"%char.

(** The two pattern searches tried when every format has failed. *)
Definition date_fallback (s : str) : option str :=
  match re_search re_iso_like s with
  | Some (g1, g2, g3) => Some (g1 ++ dash :: g2 ++ dash :: g3)
  | None =>
      match re_search re_us_like s with
      | Some (g1, g2, g3) => Some (g3 ++ dash :: zfill 2 g1 ++ dash :: zfill 2 g2)
      | None => None
      end
  end.

Definition is_blank (s : str) : bool :=
  match strip s with [] => true | _ :: _ => false end.

Definition _parse_date (pad_year : bool) (s : str) : option str :=
  if is_blank s then None
  else
    let s := strip s in
    match first_format s date_formats with
    | Some d => Some (strftime_ymd pad_year d)
    | None => date_fallback s
    end.

(** ** Python floats

    IEEE binary64 with round-to-nearest-even, as [SpecFloat] specifies it. *)

Abbreviation float := spec_float.

Definition prec : Z := 53.
Definition emax : Z := 1024.

Definition fmul : float -> float -> float := SFmul prec emax.
Definition fneg : float -> float := SFopp.
Definition fabs : float -> float := SFabs.
Definition flt : float -> float -> bool := SFltb.
Definition feq : float -> float -> bool := SFeqb.

(** [float(n)] for an integer [n]. *)
Definition float_of_Z (n : Z) : float := binary_normalize prec emax n 0 false.

(** The binary64 value nearest to [n / d]. *)
Definition round_ratio (neg : bool) (n d : positive) : float :=
  SFdiv prec emax (S754_finite neg n 0) (S754_finite false d 0).

(** What a numeric string denotes before rounding: an infinity, a NaN, or
    the decimal [(-1)^neg * digits * 10^exp10]. *)
Inductive float_lit : Type :=
| LitInf (neg : bool)
| LitNan
| LitDec (neg : bool) (digits : Z) (exp10 : Z).

Definition float_of_lit (l : float_lit) : float :=
  match l with
  | LitInf neg => S754_infinity neg
  | LitNan => S754_nan
  | LitDec neg digits exp10 =>
      match digits with
      | Zpos n =>
          match exp10 with
          | Zneg k => round_ratio neg n (Pos.pow 10 k)
          | Z0 => round_ratio neg n 1
          | Zpos k => round_ratio neg (n * Pos.pow 10 k) 1
          end
      | _ => S754_zero neg
      end
  end.

(** White space [float()] strips: the ASCII set of [Py_ISSPACE], and the
    non-ASCII spaces, which it first turns into blanks. *)
Definition is_float_space (c : ascii) : bool :=
  let n := code c in
  ((9 <=? n) && (n <=? 13)) || (n =? 32) || (n =? 133) || (n =? 160).

Fixpoint lstrip_float (s : str) : str :=
  match s with
  | c :: r => if is_float_space c then lstrip_float r else s
  | [] => []
  end.

Definition strip_float (s : str) : str :=
  rev (lstrip_float (rev (lstrip_float s))).

Definition underscore : ascii := "_"%char.

(** Underscores are accepted between two digits only, and dropped
    ([_Py_string_to_number_with_underscores]); [prev] is the previous
    character. *)
Fixpoint drop_underscores (prev : option ascii) (s : str) : option str :=
  match s with
  | [] =>
      match prev with
      | Some p => if Ascii.eqb p underscore then None else Some []
      | None => Some []
      end
  | c :: r =>
      if Ascii.eqb c underscore then
        match prev with
        | Some p => if is_digit p then drop_underscores (Some c) r else None
        | None => None
        end
      else
        match prev with
        | Some p =>
            if Ascii.eqb p underscore && negb (is_digit c) then None
            else option_map (cons c) (drop_underscores (Some c) r)
        | None => option_map (cons c) (drop_underscores (Some c) r)
        end
  end.

Fixpoint span_digits (s : str) : str * str :=
  match s with
  | c :: r =>
      if is_digit c then let '(ds, rest) := span_digits r in (c :: ds, rest)
      else ([], s)
  | [] => ([], [])
  end.

Definition digits_value (ds : str) : Z :=
  fold_left (fun acc c => 10 * acc + digit_val c) ds 0.

Definition read_sign (s : str) : bool * str :=
  match s with
  | c :: r =>
      if Ascii.eqb c "-" then (true, r)
      else if Ascii.eqb c "+" then (false, r)
      else (false, s)
  | [] => (false, [])
  end.

(** The exponent part: consumed only when digits follow. *)
Definition read_exponent (s : str) : Z * str :=
  match s with
  | c :: r =>
      if Ascii.eqb (lower_char c) "e" then
        let '(neg, r1) := read_sign r in
        match span_digits r1 with
        | ([], _) => (0, s)
        | (ds, rest) => ((if neg then - digits_value ds else digits_value ds), rest)
        end
      else (0, s)
  | [] => (0, [])
  end.

(** The decimal grammar of [strtod]: sign, digits, point, digits, exponent,
    with a digit before or after the point. *)
Definition read_decimal (s : str) : option (float_lit * str) :=
  let '(neg, r) := read_sign s in
  let '(ip, r1) := span_digits r in
  let '(fp, r2) :=
    match r1 with
    | c :: r1' => if Ascii.eqb c "." then span_digits r1' else ([], r1)
    | [] => ([], [])
    end in
  match ip ++ fp with
  | [] => None
  | ds =>
      let '(e, rest) := read_exponent r2 in
      Some (LitDec neg (digits_value ds) (e - Z.of_nat (List.length fp)), rest)
  end.

(** [inf], [infinity] and [nan], in any case, after an optional sign. *)
Definition read_inf_nan (s : str) : option (float_lit * str) :=
  let '(neg, r) := read_sign s in
  let l := lower r in
  if starts_with (lit "infinity") l then Some (LitInf neg, skipn 8 r)
  else if starts_with (lit "inf") l then Some (LitInf neg, skipn 3 r)
  else if starts_with (lit "nan") l then Some (LitNan, skipn 3 r)
  else None.

(** The literal a string denotes for [float()]; [None] is a [ValueError]. *)
Definition float_literal (s : str) : option float_lit :=
  match (if contains [underscore] s then drop_underscores None s else Some s) with
  | None => None
  | Some s1 =>
      let s2 := strip_float s1 in
      match (match read_decimal s2 with
             | Some r => Some r
             | None => read_inf_nan s2
             end) with
      | Some (l, []) => Some l
      | _ => None
      end
  end.

(** [float(s)] *)
Definition float_of_str (s : str) : option float :=
  option_map float_of_lit (float_literal s).

(** [int(x)] for a float: truncation toward zero. *)
Inductive int_result : Type :=
| IntOk (z : Z)
| IntValueError
| IntOverflowError.

Definition int_of_float (x : float) : int_result :=
  match x with
  | S754_zero _ => IntOk 0
  | S754_nan => IntValueError
  | S754_infinity _ => IntOverflowError
  | S754_finite neg m e =>
      let mag := if 0 <=? e then Zpos m * 2 ^ e else Zpos m / 2 ^ (- e) in
      IntOk (if neg then - mag else mag)
  end.

(** ** [amazon_csv_to_ynab._parse_amount] *)

Definition _parse_amount (s : str) : option float :=
  if is_blank s then None
  else
    float_of_str
      (strip (replace (lit "CAD") [] (replace (lit "$") []
                (replace (lit ",") [] (strip s))))).

(** ** [amazon_csv_to_ynab._find_column] *)

(** A [dict] whose order matters: assignment to a present key keeps the
    key's place and replaces its value. *)
Fixpoint dict_set {V} (k : str) (v : V) (d : list (str * V)) : list (str * V) :=
  match d with
  | [] => [(k, v)]
  | (k', v') :: r =>
      if str_eqb k' k then (k', v) :: r else (k', v') :: dict_set k v r
  end.

Fixpoint dict_get {V} (k : str) (d : list (str * V)) : option V :=
  match d with
  | [] => None
  | (k', v) :: r => if str_eqb k' k then Some v else dict_get k r
  end.

(** [{k.strip().lower(): k for k in row_dict.keys()}] *)
Definition keys_lower (keys : list str) : list (str * str) :=
  fold_left (fun d k => dict_set (lower (strip k)) k d) keys [].

(** [x.replace(" ", "").replace(".", "")] *)
Definition squash (x : str) : str :=
  replace (lit ".") [] (replace (lit " ") [] x).

Fixpoint exact_pass (kl : list (str * str)) (candidates : list str) : option str :=
  match candidates with
  | [] => None
  | c :: rest =>
      match dict_get (lower c) kl with
      | Some k => Some k
      | None => exact_pass kl rest
      end
  end.

Fixpoint partial_inner (c : str) (items : list (str * str)) : option str :=
  match items with
  | [] => None
  | (k, v) :: rest =>
      if contains (squash c) (squash k) then Some v else partial_inner c rest
  end.

Fixpoint partial_pass (kl : list (str * str)) (candidates : list str) : option str :=
  match candidates with
  | [] => None
  | c :: rest =>
      match partial_inner c kl with
      | Some v => Some v
      | None => partial_pass kl rest
      end
  end.

Definition _find_column (keys candidates : list str) : option str :=
  let kl := keys_lower keys in
  match exact_pass kl candidates with
  | Some k => Some k
  | None => partial_pass kl candidates
  end.

(** ** [amazon_csv_to_ynab._categorize] *)

Definition PAYEE : str := lit "Amazon.ca".
Definition DEFAULT_CATEGORY : str := lit "Uncategorized".

Definition CATEGORY_KEYWORDS : list (str * list str) :=
  map (fun ck => (lit (fst ck), map lit (snd ck)))
  [ ("Kids Supplies", ["kid"; "baby"; "toddler"; "diaper"; "crib"; "stroller";
       "book"; "toy"; "magnetic tiles"; "pat-a-cake"; "oobleck"; "bartholomew"]);
    ("Home Maintenance & Decor", ["filter"; "furniture"; "ottoman";
       "coffee table"; "light bulb"; "dimmer"; "screwdriver"; "scissors";
       "splatter"; "bed rail"]);
    ("Personal Care", ["cerave"; "baby wash"; "shampoo"; "skincare"; "makeup"; "soap"]);
    ("Wardrobe", ["slipper"; "ugg"; "shoes"; "clothes"; "gaiters"]);
    ("Subscriptions (Monthly)", ["prime video"; "ad free"; "subscription";
       "appstore"; "vimu"]);
    ("Gifts & Giving", ["gift card"; "egift"; "gingerbread"]);
    ("Retreats", ["buddhism"; "vajrayana"; "dangerous friend"; "dharma"]);
    ("Fitness & Coaching", ["gym"; "phone holder"; "fitness"; "coaching"]);
    ("Groceries", ["glad"; "garbage bag"; "grocer"]) ]%string.

Fixpoint categorize_rules (rules : list (str * list str)) (m : str) : str :=
  match rules with
  | [] => DEFAULT_CATEGORY
  | (cat, keywords) :: rest =>
      if existsb (fun kw => contains (lower kw) m) keywords then cat
      else categorize_rules rest m
  end.

Definition _categorize (memo : str) : str :=
  categorize_rules CATEGORY_KEYWORDS (lower memo).

(** ** The record builder of [amazon_csv_to_ynab.main] *)

(** [amount_ynab] is a float, or the integer literal [0]. *)
Inductive amount : Type :=
| AmtFloat (x : float)
| AmtZero.

Record out_row := mkrow {
  Date : str; Payee : str; Memo : str; Amount : amount; Category : str }.

Definition fzero : float := S754_zero false.

Definition REFUND_WORDS : list str := map lit ["return"; "refund"; "reimbursement"]%string.

Definition is_refund (memo_str : str) : bool :=
  existsb (fun x => contains x (lower memo_str)) REFUND_WORDS.

(** Lines 138-144: inflow for a positive amount with a refund word in the
    memo, outflow otherwise. *)
Definition signed_amount (amount_val : float) (memo_str : str) : amount :=
  if flt fzero amount_val && is_refund memo_str then AmtFloat amount_val
  else if negb (feq amount_val fzero) then AmtFloat (fneg (fabs amount_val))
  else AmtZero.

(** *** Deduplication, lines 157-164 *)

Definition dkey : Type := str * amount * str.

Definition row_key (r : out_row) : dkey := (Date r, Amount r, slice_to 100 (Memo r)).

(** [==] on the amounts of two records, as the membership test of line 162
    applies it: numeric equality, so a NaN equals nothing. Each row gets a
    float object of its own (lines 131 and 144), so the identity shortcut of
    the tuple comparison never applies to the amounts of two records. *)
Definition amount_eqb (a b : amount) : bool :=
  match a, b with
  | AmtFloat x, AmtFloat y => feq x y
  | AmtFloat x, AmtZero => feq x fzero
  | AmtZero, AmtFloat y => feq fzero y
  | AmtZero, AmtZero => true
  end.

Definition key_eqb (a b : dkey) : bool :=
  str_eqb a.1.1 b.1.1 && amount_eqb a.1.2 b.1.2 && str_eqb a.2 b.2.

(** The loop state: the set [seen] (here the list of its members) and the
    list [deduped]. *)
Definition dedup_step (st : list dkey * list out_row) (r : out_row)
    : list dkey * list out_row :=
  let key := row_key r in
  if existsb (key_eqb key) st.1 then st
  else (key :: st.1, st.2 ++ [r]).

Definition dedupe (rows_out : list out_row) : list out_row :=
  (fold_left dedup_step rows_out ([], [])).2.

(** ** [ynab_import.main] *)

Inductive api_result (A : Type) : Type :=
| ApiOk (a : A)
| ApiException (msg : str).
Arguments ApiOk {A} a.
Arguments ApiException {A} msg.

(** A date attribute of a ledger transaction: a [date] object or a text. *)
Inductive date_field : Type :=
| DateObj (d : date)
| DateText (s : str).

Record ledger_tx := mktx {
  tx_amount : Z;
  tx_var_date : option date_field;
  tx_date : option date_field }.

Record new_tx := mknew {
  nt_date : date; nt_amount : Z;
  nt_payee_name : option str; nt_memo : option str;
  nt_category_id : option str }.

Inductive event : Type :=
| EvCategoriesFetched
| EvErrorFetchingCategories (msg : str)
| EvLoaded (n : nat)
| EvWarnFetch (msg : str)
| EvWarnCategory (category_name payee : str)
| EvSkipped (n : nat)
| EvNoTransactions
| EvSubmit (batch : list new_tx)
| EvImported (n : nat)
| EvRemoteSkipped (n : nat)
| EvErrorImporting (msg : str).

Inductive exit_status : Type :=
| Returned
| Exit1
| Crashed.

Definition CATEGORY_MAPPING : list (str * str) :=
  map (fun kv => (lit (fst kv), lit (snd kv)))
  [ ("amazon.ca", "Online Shopping"); ("sobeys", "Groceries");
    ("tim hortons", "Dining Out"); ("payroll - employer name", "Income") ]%string.

Definition DEFAULT_CATEGORY_NAME : str := lit "Uncategorized".

Definition US_FORMAT : str := lit "%m/%d/%Y".

(** Lines 79-85: the Date cell as [%Y-%m-%d], else as [%m/%d/%Y]. *)
Definition import_date (date_str : str) : option date :=
  match strptime date_str ISO_FORMAT with
  | Some d => Some d
  | None => strptime date_str US_FORMAT
  end.

(** Line 88: [int(float(amount_str) * 1000)]. *)
Definition import_amount (amount_str : str) : int_result :=
  match float_of_str amount_str with
  | None => IntValueError
  | Some x => int_of_float (fmul x (float_of_Z 1000))
  end.

(** A row of [csv.DictReader]: the cell under each column name of the
    header. A line shorter than the header leaves [None] under the columns
    it does not reach. (The cells of a line longer than the header sit under
    the key [None], which the import never reads.) *)
Definition csv_row : Type := gmap str (option str).

(** [row.get(col, default)]: the cell, which may be [None], or the default
    where the header has no such column. *)
Definition row_get_default (row : csv_row) (col : str) (dflt : str) : option str :=
  default (Some dflt) (row !! col).

(** [row.get(col) or ""] *)
Definition row_get_or_empty (row : csv_row) (col : str) : str :=
  match row !! col with
  | Some (Some s) => s
  | Some None | None => []
  end.

Definition candidate : Type := date * Z * csv_row.

Inductive row_result : Type :=
| RowSkip
| RowCrash
| RowOk (d : date) (amount : Z).

(** One iteration of the first pass, lines 76-91: a [ValueError] skips the
    row. Two exceptions are not caught and end the run: the
    [AttributeError] of [.strip()] on a cell that is [None] (lines 76 and
    86), and the [OverflowError] of [int] on an infinity (line 88). *)
Definition read_row (row : csv_row) : row_result :=
  match row_get_default row (lit "Date") [] with
  | None => RowCrash
  | Some date_cell =>
      let date_str := strip date_cell in
      match date_str with
      | [] => RowSkip
      | _ :: _ =>
          match import_date date_str with
          | None => RowSkip
          | Some date_obj =>
              match row_get_default row (lit "Amount") (lit "0") with
              | None => RowCrash
              | Some amount_cell =>
                  let amount_str := replace (lit ",") [] (strip amount_cell) in
                  match import_amount amount_str with
                  | IntOk a => RowOk date_obj a
                  | IntValueError => RowSkip
                  | IntOverflowError => RowCrash
                  end
              end
          end
      end
  end.

Definition min_date (m : option date) (d : date) : option date :=
  match m with
  | None => Some d
  | Some m0 => if date_ltb d m0 then Some d else Some m0
  end.

(** The first pass: [csv_rows] and [min_csv_date]; [None] is a crash. *)
Fixpoint first_pass (rows : list csv_row) (csv_rows : list candidate)
    (min_csv_date : option date) : option (list candidate * option date) :=
  match rows with
  | [] => Some (csv_rows, min_csv_date)
  | row :: rest =>
      match read_row row with
      | RowSkip => first_pass rest csv_rows min_csv_date
      | RowCrash => None
      | RowOk d a => first_pass rest (csv_rows ++ [(d, a, row)]) (min_date min_csv_date d)
      end
  end.

Definition truthy (f : option date_field) : bool :=
  match f with
  | Some (DateObj _) => true
  | Some (DateText (_ :: _)) => true
  | _ => false
  end.

Definition field_text (f : date_field) : str :=
  match f with
  | DateObj d => isoformat d
  | DateText s => s
  end.

(** Lines 106-117: the transaction's date, read back from its first ten
    characters, is appended to the list under the transaction's amount. *)
Definition index_add (existing_by_amount : gmap Z (list date)) (tx : ledger_tx)
    : gmap Z (list date) :=
  let tx_date_val := if truthy (tx_var_date tx) then tx_var_date tx else tx_date tx in
  match tx_date_val with
  | None => existing_by_amount
  | Some f =>
      match strptime (slice_to 10 (field_text f)) ISO_FORMAT with
      | None => existing_by_amount
      | Some dt_obj =>
          <[ tx_amount tx :=
               default [] (existing_by_amount !! tx_amount tx) ++ [dt_obj] ]>
            existing_by_amount
      end
  end.

Definition build_index (txs : list ledger_tx) : gmap Z (list date) :=
  fold_left index_add txs ∅.

Definition index_size (idx : gmap Z (list date)) : nat :=
  map_fold (fun _ v n => (List.length v + n)%nat) 0%nat idx.

(** Lines 122-128. *)
Definition is_duplicate (DAYS_TOLERANCE : Z) (existing_by_amount : gmap Z (list date))
    (import_date : date) (import_amount : Z) : bool :=
  match existing_by_amount !! import_amount with
  | None => false
  | Some dates =>
      existsb (fun existing_date =>
                 Z.abs (days_between import_date existing_date) <=? DAYS_TOLERANCE)
        dates
  end.

Definition none_if_empty (s : str) : option str :=
  match s with [] => None | _ :: _ => Some s end.

(** [(row.get(col) or "").strip()] *)
Definition row_text (row : csv_row) (col : string) : str :=
  strip (row_get_or_empty row (lit col)).

(** Lines 138-148: the category of a row and, when the budget knows it, its
    identifier. *)
Definition category_name_of (row : csv_row) : str :=
  match row_text row "Category" with
  | [] => default DEFAULT_CATEGORY_NAME
            (dict_get (lower (row_text row "Payee")) CATEGORY_MAPPING)
  | c :: r => c :: r
  end.

Definition category_id_of (category_id_map : gmap str str) (row : csv_row)
    : option str :=
  match category_name_of row with
  | [] => None
  | n => category_id_map !! lower n
  end.

Definition make_tx (category_id_map : gmap str str) (c : candidate) : new_tx :=
  let '(date_obj, amount, row) := c in
  mknew date_obj amount
    (none_if_empty (row_text row "Payee"))
    (none_if_empty (slice_to 500 (row_text row "Memo")))
    (category_id_of category_id_map row).

(** The state of the classification loop. The index is part of it: the loop
    reads the dictionary the fetch filled. *)
Record loop_state := mkloop {
  existing_by_amount : gmap Z (list date);
  transactions_to_import : list new_tx;
  skipped_duplicates : nat;
  warnings : list event }.

Definition classify_step (DAYS_TOLERANCE : Z) (category_id_map : gmap str str)
    (st : loop_state) (c : candidate) : loop_state :=
  let '(date_obj, amount, row) := c in
  if is_duplicate DAYS_TOLERANCE (existing_by_amount st) date_obj amount then
    mkloop (existing_by_amount st) (transactions_to_import st)
      (S (skipped_duplicates st)) (warnings st)
  else
    let tx := make_tx category_id_map c in
    mkloop (existing_by_amount st) (transactions_to_import st ++ [tx])
      (skipped_duplicates st)
      (warnings st ++
         match category_name_of row, nt_category_id tx with
         | _ :: _, (None | Some []) =>
             [EvWarnCategory (category_name_of row) (row_text row "Payee")]
         | _, _ => []
         end).

Definition classify (DAYS_TOLERANCE : Z) (category_id_map : gmap str str)
    (idx : gmap Z (list date)) (csv_rows : list candidate) : loop_state :=
  fold_left (classify_step DAYS_TOLERANCE category_id_map) csv_rows
    (mkloop idx [] 0%nat []).

Definition MAX_ORDINAL : Z := 3652059.

Section Run.

(** The remote ledger: the listing of an account's transactions since a day
    (given by its ordinal) and the creation of a batch, which answers with
    the numbers of created and of remotely detected duplicate transactions. *)
Variable get_transactions_by_account : Z -> api_result (option (list ledger_tx)).
Variable create_transaction : list new_tx -> api_result (nat * nat).
Variable DAYS_TOLERANCE : Z.

(** Lines 98-120: the index and what the fetch printed; [None] is the
    [OverflowError] of a date out of the calendar's range. *)
Definition load_existing (min_csv_date : option date)
    : option (gmap Z (list date) * list event) :=
  match min_csv_date with
  | None => Some (∅, [])
  | Some m =>
      let since := toordinal m - DAYS_TOLERANCE in
      if (Z.abs DAYS_TOLERANCE <=? 999999999) && (1 <=? since) && (since <=? MAX_ORDINAL)
      then
        match get_transactions_by_account since with
        | ApiOk txs =>
            let idx := build_index (default [] txs) in
            Some (idx, [EvLoaded (index_size idx)])
        | ApiException msg => Some (∅, [EvWarnFetch msg])
        end
      else None
  end.

(** Lines 164-181. *)
Definition submit (st : loop_state) : list event * exit_status :=
  let skipped :=
    match skipped_duplicates st with
    | O => []
    | S _ => [EvSkipped (skipped_duplicates st)]
    end in
  match transactions_to_import st with
  | [] => (skipped ++ [EvNoTransactions], Returned)
  | batch =>
      match create_transaction batch with
      | ApiOk (created, duplicate) =>
          (skipped ++ EvSubmit batch :: EvImported created ::
             match duplicate with
             | O => []
             | S _ => [EvRemoteSkipped duplicate]
             end, Returned)
      | ApiException msg => (skipped ++ [EvSubmit batch; EvErrorImporting msg], Exit1)
      end
  end.

(** The run, from the fetch of the categories on. *)
Definition run (categories : api_result (gmap str str)) (rows : list csv_row)
    : list event * exit_status :=
  match categories with
  | ApiException msg => ([EvErrorFetchingCategories msg], Exit1)
  | ApiOk category_id_map =>
      match first_pass rows [] None with
      | None => ([EvCategoriesFetched], Crashed)
      | Some (csv_rows, min_csv_date) =>
          match load_existing min_csv_date with
          | None => ([EvCategoriesFetched], Crashed)
          | Some (idx, fetch_events) =>
              let st := classify DAYS_TOLERANCE category_id_map idx csv_rows in
              let '(events, status) := submit st in
              (EvCategoriesFetched :: fetch_events ++ warnings st ++ events, status)
          end
      end
  end.

End Run.

(** ** The categories of the budget *)

(** A category and a category group as the client returns them; a flag is
    [None] when the object has no such attribute. *)
Record category := mkcat {
  cat_name : str; cat_id : str;
  cat_hidden : option bool; cat_deleted : option bool }.

Record category_group := mkgroup {
  group_name : str;
  group_hidden : option bool; group_deleted : option bool;
  group_categories : list category }.

(** [ynab_import.main], line 61:
    [not getattr(cat, "deleted", True) and not getattr(cat, "hidden", False)]. *)
Definition category_kept (cat : category) : bool :=
  negb (default true (cat_deleted cat)) && negb (default false (cat_hidden cat)).

(** Lines 59-62. *)
Definition add_category (category_id_map : gmap str str) (cat : category)
    : gmap str str :=
  if category_kept cat then <[ lower (cat_name cat) := cat_id cat ]> category_id_map
  else category_id_map.

Definition add_group (category_id_map : gmap str str) (group : category_group)
    : gmap str str :=
  fold_left add_category (group_categories group) category_id_map.

Definition build_category_map (category_groups : list category_group)
    : gmap str str :=
  fold_left add_group category_groups ∅.

(** [get_ynab_ids.main], lines 72-79: the lines printed for the category
    groups of a budget. Reading a flag an object does not have raises an
    [AttributeError], which ends the script after the lines printed so
    far. *)
Inductive id_line : Type :=
| LineGroup (name : str)
| LineCategory (name : str)
| LineBlank.

Fixpoint print_group_categories (cats : list category) : list id_line * exit_status :=
  match cats with
  | [] => ([], Returned)
  | cat :: rest =>
      match cat_hidden cat with
      | None => ([], Crashed)
      | Some true => print_group_categories rest
      | Some false =>
          match cat_deleted cat with
          | None => ([], Crashed)
          | Some true => print_group_categories rest
          | Some false =>
              let '(lines, status) := print_group_categories rest in
              (LineCategory (cat_name cat) :: lines, status)
          end
      end
  end.

Fixpoint print_categories (groups : list category_group) : list id_line * exit_status :=
  match groups with
  | [] => ([], Returned)
  | group :: rest =>
      let shown :=
        match print_group_categories (group_categories group) with
        | (lines, Returned) =>
            let '(lines', status) := print_categories rest in
            (LineGroup (group_name group) :: lines ++ LineBlank :: lines', status)
        | (lines, status) => (LineGroup (group_name group) :: lines, status)
        end in
      match group_hidden group with
      | None => ([], Crashed)
      | Some true => print_categories rest
      | Some false =>
          match group_deleted group with
          | None => ([], Crashed)
          | Some true => print_categories rest
          | Some false => shown
          end
      end
  end.


(** ** The row loop of [amazon_csv_to_ynab.main] *)

Definition DATE_COLUMNS : list str :=
  map lit ["order.date"; "order date"; "order_date"; "date"; "order placed";
           "charged on"]%string.

Definition AMOUNT_COLUMNS : list str :=
  map lit ["order.total"; "order total"; "order_total"; "item total";
           "item.total"; "total"; "amount"; "price"]%string.

Definition MEMO_COLUMNS : list str :=
  map lit ["item.title"; "item title"; "item_title"; "title"; "product";
           "description"; "item"; "memo"; "order.items"]%string.

(** A row of [csv.DictReader]: the cell under each column name of the
    header, [None] where the line is shorter than the header, and the cells
    of a line beyond the header, which the reader keeps as a list under the
    key [None] (the key is there only when the list is not empty). *)
Record reader_row := mkreader_row {
  cells : list (str * option str);
  surplus : list str }.

(** What a step of the program comes to: a value, [sys.exit(1)], or an
    exception that nothing catches. *)
Inductive outcome (A : Type) : Type :=
| Ok (a : A)
| SysExit
| Raised.
Arguments Ok {A} a.
Arguments SysExit {A}.
Arguments Raised {A}.

(** [_find_column(row, candidates)] on a row of the reader: the dictionary of
    line 37 calls [k.strip()] on every key, which raises an
    [AttributeError] on the key [None]. *)
Definition find_column_of (row : reader_row) (candidates : list str)
    : outcome (option str) :=
  match surplus row with
  | [] => Ok (_find_column (map fst (cells row)) candidates)
  | _ :: _ => Raised
  end.

(** [not c] for a column variable: [None] and the empty text are false. *)
Definition falsy (c : option str) : bool :=
  match c with
  | None | Some [] => true
  | Some (_ :: _) => false
  end.

(** [a or b] *)
Definition col_or (a b : option str) : option str := if falsy a then b else a.

(** The column variables once they are set: [date_col] and [amount_col] hold
    names, [memo_col] may be [None]. Until then [date_col] is [None]. *)
Definition columns : Type := str * str * option str.

(** Lines 110-128, run while [date_col] is [None]. *)
Definition bind_columns (row : reader_row) : outcome columns :=
  match find_column_of row DATE_COLUMNS, find_column_of row AMOUNT_COLUMNS,
        find_column_of row MEMO_COLUMNS with
  | Ok d, Ok a, Ok m =>
      let again (candidates : list str) :=
        match cells row with
        | [] => None
        | _ :: _ => _find_column (map fst (cells row)) candidates
        end in
      let '(d', a', m') :=
        if falsy d || falsy a
        then (col_or d (again DATE_COLUMNS), col_or a (again AMOUNT_COLUMNS),
              col_or m (again MEMO_COLUMNS))
        else (d, a, m) in
      match d', a' with
      | Some (c :: date_col), Some (c' :: amount_col) =>
          Ok (c :: date_col, c' :: amount_col, m')
      | _, _ => SysExit
      end
  | _, _, _ => Raised
  end.

(** [row.get(col, "")] for a column name: the cell, which is [None] in a
    short line, or the default. *)
Definition cell_of (row : reader_row) (col : str) : option str :=
  default (Some []) (dict_get col (cells row)).

(** [_parse_date] and [_parse_amount] on a cell: both answer [None] to
    [None]. *)
Definition parse_date_cell (pad_year : bool) (cell : option str) : option str :=
  match cell with
  | Some s => _parse_date pad_year s
  | None => None
  end.

Definition parse_amount_cell (cell : option str) : option float :=
  match cell with
  | Some s => _parse_amount s
  | None => None
  end.

(** Line 132, [(row.get(memo_col, "") or "").strip()[:500]]: without a memo
    column the key is [None], and in a line longer than the header
    [row.get] answers with the list of the surplus cells, on which [.strip]
    raises an [AttributeError]. *)
Definition memo_of (row : reader_row) (memo_col : option str) : outcome str :=
  match memo_col with
  | Some col =>
      Ok (slice_to 500 (strip (default [] (cell_of row col))))
  | None =>
      match surplus row with
      | [] => Ok []
      | _ :: _ => Raised
      end
  end.

(** Lines 130-155, one iteration of the row loop with the columns set;
    [Ok None] is [continue]. *)
Definition build_row (no_category pad_year : bool) (cols : columns)
    (row : reader_row) : outcome (option out_row) :=
  let '(date_col, amount_col, memo_col) := cols in
  let date_str := parse_date_cell pad_year (cell_of row date_col) in
  let amount_val := parse_amount_cell (cell_of row amount_col) in
  match memo_of row memo_col with
  | Ok memo_str =>
      match date_str, amount_val with
      | Some date_str, Some amount_val =>
          Ok (Some (mkrow date_str PAYEE
                      (match memo_str with
                       | [] => lit "Order " ++ date_str
                       | _ :: _ => memo_str
                       end)
                      (signed_amount amount_val memo_str)
                      (if no_category then [] else _categorize memo_str)))
      | _, _ => Ok None
      end
  | SysExit => SysExit
  | Raised => Raised
  end.

(** The loop over the rows of the reader, lines 109-155; the messages
    printed on the way are left out. [cols] is [None] while [date_col] is
    [None]. *)
Fixpoint convert_loop (no_category pad_year : bool) (rows : list reader_row)
    (cols : option columns) (rows_out : list out_row) : outcome (list out_row) :=
  match rows with
  | [] => Ok rows_out
  | row :: rest =>
      match (match cols with Some c => Ok c | None => bind_columns row end) with
      | Ok cols' =>
          match build_row no_category pad_year cols' row with
          | Ok (Some r) =>
              convert_loop no_category pad_year rest (Some cols') (rows_out ++ [r])
          | Ok None => convert_loop no_category pad_year rest (Some cols') rows_out
          | SysExit => SysExit
          | Raised => Raised
          end
      | SysExit => SysExit
      | Raised => Raised
      end
  end.

(** The records written to the output file. *)
Definition convert (no_category pad_year : bool) (rows : list reader_row)
    : outcome (list out_row) :=
  match convert_loop no_category pad_year rows None [] with
  | Ok rows_out => Ok (dedupe rows_out)
  | SysExit => SysExit
  | Raised => Raised
  end.

(** * Definitions for the statements *)

(** A row of the converted file with the two cells the first pass reads. *)
Definition row_of (date_str amount_str : string) : csv_row :=
  <[ lit "Date" := Some (lit date_str) ]>
    (<[ lit "Amount" := Some (lit amount_str) ]> ∅).

(** One ledger transaction: -50.00 on 2024-03-13. *)
Definition ledger_example : list ledger_tx :=
  [mktx (-50000) (Some (DateObj (mkdate 2024 3 13))) None].

(** [is_duplicate] on a candidate of [csv_rows]. *)
Definition cand_dup (tol : Z) (idx : gmap Z (list date)) (c : candidate) : bool :=
  is_duplicate tol idx c.1.1 c.1.2.

(** The value the claim names for an amount string: the decimal the string
    denotes, times 1000, truncated toward zero. *)
Definition decimal_minor_units (s : str) : option Z :=
  match float_literal s with
  | Some (LitDec neg digits exp10) =>
      let scaled :=
        if 0 <=? exp10 + 3 then digits * 10 ^ (exp10 + 3)
        else digits / 10 ^ (- (exp10 + 3)) in
      Some (if neg then - scaled else scaled)
  | _ => None
  end.


(** The groups after one more directive has matched the text [t]. *)
Definition set_Y (g : groups) (t : str) : groups :=
  mkgroups (Some t) (gm g) (gd g) (gb g) (gB g).
Definition set_m (g : groups) (t : str) : groups :=
  mkgroups (gY g) (Some t) (gd g) (gb g) (gB g).
Definition set_d (g : groups) (t : str) : groups :=
  mkgroups (gY g) (gm g) (Some t) (gb g) (gB g).
Definition set_b (g : groups) (t : str) : groups :=
  mkgroups (gY g) (gm g) (gd g) (Some t) (gB g).
Definition set_B (g : groups) (t : str) : groups :=
  mkgroups (gY g) (gm g) (gd g) (gb g) (Some t).

(** What [%b] and [%B] print for month [m]. *)
Definition abbr_of (m : Z) : str := nth (Z.to_nat (m - 1)) month_abbr [].
Definition name_of (m : Z) : str := nth (Z.to_nat (m - 1)) month_name [].



(** The match of a format, given as its items, and the date it yields. *)
Definition try_items (items : list fmt_item) (s : str) : option date :=
  match re_format items no_groups s with
  | (g, []) :: _ => date_of_groups g
  | _ => None
  end.

(** The items of the seven formats of [date_formats]. *)
Definition F_iso := [FmtY; FmtLit "-"; Fmtm; FmtLit "-"; Fmtd].


(** The date (y, m, d) written in each of the seven formats, the year in
    four digits. *)
Definition S_iso (y m d : Z) : str :=
  zpad4 y ++ "-"%char :: zpad2 m ++ "-"%char :: zpad2 d.





(** A text of the form [YYYY-MM-DD] that names a day of the calendar. *)
Definition is_iso_date (s : str) : bool :=
  match s with
  | [y1; y2; y3; y4; h1; m1; m2; h2; d1; d2] =>
      forallb is_digit [y1; y2; y3; y4; m1; m2; d1; d2]
      && Ascii.eqb h1 "-" && Ascii.eqb h2 "-"
      && valid_date (group_int [y1; y2; y3; y4]) (group_int [m1; m2])
           (group_int [d1; d2])
  | _ => false
  end.

(** The three removals of [_parse_amount], in the order the code makes
    them. *)
Definition undecorate (s : str) : str :=
  replace (lit "CAD") [] (replace (lit "$") [] (replace (lit ",") [] s)).

(** [decorated b d]: the text [d] is [b] with commas, dollar signs and the
    code [CAD] put in at any places. *)
Inductive decorated : str -> str -> Prop :=
| dec_nil : decorated [] []
| dec_char c b d : decorated b d -> decorated (c :: b) (c :: d)
| dec_comma b d : decorated b d -> decorated b (","%char :: d)
| dec_dollar b d : decorated b d -> decorated b ("$"%char :: d)
| dec_code b d : decorated b d -> decorated b (lit "CAD" ++ d).

(** A text with none of the three decorations. *)
Definition symbol_free (b : str) : Prop :=
  ~ In ","%char b /\ ~ In "$"%char b /\ contains (lit "CAD") b = false.

(** A run of white space. *)
Definition all_space (w : str) : Prop := forallb is_space w = true.

(** Decorations by the code alone. *)
Inductive coded : str -> str -> Prop :=
| cod_nil : coded [] []
| cod_char c b d : coded b d -> coded (c :: b) (c :: d)
| cod_code b d : coded b d -> coded b (lit "CAD" ++ d).

(** The name a column is compared under: trimmed and lowercased. *)
Definition norm (k : str) : str := lower (strip k).

(** The first result of [f] along a list. *)
Fixpoint first_some {A B} (f : A -> option B) (l : list A) : option B :=
  match l with
  | [] => None
  | x :: rest => match f x with Some y => Some y | None => first_some f rest end
  end.

(** The last column of the row with a given trimmed, lowercased name. *)
Definition last_named (x : str) (keys : list str) : option str :=
  List.find (fun k => str_eqb (norm k) x) (rev keys).

(** The first column of the row whose name, without spaces and periods,
    contains the alias, without spaces and periods. *)
Definition first_containing (c : str) (keys : list str) : option str :=
  List.find (fun k => contains (squash c) (squash (norm k))) keys.

(** Resolution as the code makes it, without the dictionary. *)
Definition resolve_alias_major (keys candidates : list str) : option str :=
  match first_some (fun c => last_named (lower c) keys) candidates with
  | Some k => Some k
  | None =>
      first_some
        (fun c =>
           match first_containing c keys with
           | Some kf => last_named (norm kf) keys
           | None => None
           end)
        candidates
  end.

(** ASCII punctuation ([string.punctuation]). *)
Definition is_punct (c : ascii) : bool :=
  let n := code c in
  ((33 <=? n) && (n <=? 47)) || ((58 <=? n) && (n <=? 64))
  || ((91 <=? n) && (n <=? 96)) || ((123 <=? n) && (n <=? 126)).

(** A name with its white space and punctuation stripped, in lower case. *)
Definition normalize_claimed (s : str) : str :=
  List.filter (fun c => negb (is_space c || is_punct c)) (lower s).

(** Resolution as the claim words it: aliases in order against the column
    names, compared without regard to case; then the first column whose
    name, with white space and punctuation stripped, contains a stripped
    alias. *)
Definition resolve_as_claimed (keys candidates : list str) : option str :=
  match first_some
          (fun c => List.find (fun k => str_eqb (lower k) (lower c)) keys)
          candidates with
  | Some k => Some k
  | None =>
      List.find
        (fun k =>
           existsb (fun c => contains (normalize_claimed c) (normalize_claimed k))
             candidates)
        keys
  end.

(** The candidate of the row -50.00 on 2024-03-10, and a remote ledger
    whose listing fails while its creation call succeeds. *)
Definition candidate_example : candidate :=
  (mkdate 2024 3 10, -50000, row_of "2024-03-10" "-50.00").

Definition failing_fetch (since : Z) : api_result (option (list ledger_tx)) :=
  ApiException (lit "timeout").

Definition accepting_create (batch : list new_tx) : api_result (nat * nat) :=
  ApiOk (List.length batch, 0%nat).


Definition row_example (memo : string) : out_row :=
  mkrow (lit "2024-03-10") PAYEE (lit memo)
    (AmtFloat (S754_finite true 7036874417766400 (-47))) (lit "Kids Supplies").

(** The checks of the [date] constructor, on a date. *)
Definition date_ok (a : date) : bool := valid_date (year a) (month a) (day a).

(** The candidate a row gives, if the first pass keeps it. *)
Definition candidate_of (row : csv_row) : option candidate :=
  match read_row row with
  | RowOk d a => Some (d, a, row)
  | _ => None
  end.

(** The date the index records for a ledger transaction, lines 107-114:
    [var_date] when set, else [date], read back from its first ten
    characters. *)
Definition ledger_date (tx : ledger_tx) : option date :=
  match (if truthy (tx_var_date tx) then tx_var_date tx else tx_date tx) with
  | None => None
  | Some f => strptime (slice_to 10 (field_text f)) ISO_FORMAT
  end.

(** The dates of the transactions of a given amount, in ledger order. *)
Definition dates_for (a : Z) (txs : list ledger_tx) : list date :=
  omap (fun tx => if tx_amount tx =? a then ledger_date tx else None) txs.

Definition is_submit (e : event) : bool :=
  match e with EvSubmit _ => true | _ => false end.

(** A warning about a category the budget does not know. *)
Definition is_category_warning (e : event) : bool :=
  match e with EvWarnCategory _ _ => true | _ => false end.

(** The warning the loop prints for a candidate, if any. *)
Definition category_warning (tol : Z) (cmap : gmap str str) (idx : gmap Z (list date))
    (c : candidate) : option event :=
  if cand_dup tol idx c then None
  else
    match category_id_of cmap c.2 with
    | None | Some [] =>
        Some (EvWarnCategory (category_name_of c.2) (row_text c.2 "Payee"))
    | Some (_ :: _) => None
    end.

(** All categories of the groups, in the order of the listing. *)
Definition all_categories (groups : list category_group) : list category :=
  List.concat (map group_categories groups).

(** The identifiers of the kept categories with a given lowercased name. *)
Definition ids_named (n : str) (cats : list category) : list str :=
  map cat_id
    (List.filter (fun c => category_kept c && str_eqb (lower (cat_name c)) n) cats).

(** A text of the shape [Y-MM-DD]: a year of one to four digits, and two
    digits each for the month and the day. *)
Definition date_shaped (t : str) : Prop :=
  exists ys m1 m2 d1 d2,
    t = ys ++ "-"%char :: [m1; m2] ++ "-"%char :: [d1; d2]
    /\ forallb is_digit (ys ++ [m1; m2; d1; d2]) = true
    /\ (1 <= List.length ys <= 4)%nat.

(** The keyword of Personal Care that a keyword of Kids Supplies
    shadows. *)
Definition dead_keyword : str := lit "baby wash".

(** A listing of one group with a visible and a hidden category. *)
Definition groups_example : list category_group :=
  [mkgroup (lit "Everyday") (Some false) (Some false)
     [mkcat (lit "Groceries") (lit "id-1") (Some false) (Some false);
      mkcat (lit "Old") (lit "id-2") (Some true) (Some false)]].

(** An export of two rows with the same order. *)
Definition rows_example : list reader_row :=
  [mkreader_row
     [(lit "Order Date", Some (lit "2024-03-10")); (lit "Total", Some (lit "$12.50"));
      (lit "Title", Some (lit "Kid toy"))] [];
   mkreader_row
     [(lit "Order Date", Some (lit "03/10/2024")); (lit "Total", Some (lit "12.50 CAD"));
      (lit "Title", Some (lit "Kid toy"))] []].

(** Amounts that are NaN, and amounts that are zero (the integer 0 or a
    float zero of either sign). *)
Definition amount_is_nan (a : amount) : bool :=
  match a with
  | AmtFloat S754_nan => true
  | _ => false
  end.

Definition amount_is_zero (a : amount) : bool :=
  match a with
  | AmtZero | AmtFloat (S754_zero _) => true
  | _ => false
  end.




(** The lines on which line 132 raises: those longer than the header, when
    there is no memo column. *)
Definition memo_raises (memo_col : option str) (row : reader_row) : bool :=
  match memo_col, surplus row with
  | None, _ :: _ => true
  | _, _ => false
  end.

(** The record of a line that raises nothing. *)
Definition record_of (no_category pad_year : bool) (cols : columns)
    (row : reader_row) : option out_row :=
  match build_row no_category pad_year cols row with
  | Ok r => r
  | _ => None
  end.

(** The column names of a row. *)
Definition keys_of (row : reader_row) : list str := map fst (cells row).

(** The rows on which the first pass raises an exception it does not catch:
    a Date cell that is [None], or, the date being readable, an Amount cell
    that is [None] or an amount whose thousandfold is infinite. *)
Definition row_raises (row : csv_row) : Prop :=
  row !! lit "Date" = Some None
  \/ exists date_cell d,
       row_get_default row (lit "Date") [] = Some date_cell
       /\ import_date (strip date_cell) = Some d
       /\ (row !! lit "Amount" = Some None
           \/ exists amount_cell,
                row_get_default row (lit "Amount") (lit "0") = Some amount_cell
                /\ import_amount (replace (lit ",") [] (strip amount_cell))
                   = IntOverflowError).

(** A listing that answers every request with transactions of the ledger,
    among them all those dated on or after the requested day. *)
Definition lists_ledger_since (get : Z -> api_result (option (list ledger_tx)))
    (ledger : list ledger_tx) : Prop :=
  forall since, exists txs,
    get since = ApiOk txs
    /\ (forall tx, In tx (default [] txs) -> In tx ledger)
    /\ (forall tx e, In tx ledger -> ledger_date tx = Some e ->
                     since <= toordinal e -> In tx (default [] txs)).

(** The listing of a ledger from a day on: the transactions with a readable
    date on or after that day. *)
Definition listing_since (ledger : list ledger_tx) (since : Z)
    : api_result (option (list ledger_tx)) :=
  ApiOk (Some (List.filter
                 (fun tx =>
                    match ledger_date tx with
                    | Some e => since <=? toordinal e
                    | None => false
                    end)
                 ledger)).

(** A ledger with a transaction of 2024-03-13 and an older one, both of
    -50.00. *)
Definition old_and_new_ledger : list ledger_tx :=
  [mktx (-50000) (Some (DateObj (mkdate 2020 1 1))) None;
   mktx (-50000) (Some (DateObj (mkdate 2024 3 13))) None].

(** * Properties *)

(** ** The reconciler *)

Lemma is_duplicate_spec tol (idx : gmap Z (list date)) d a :
  is_duplicate tol idx d a = true <->
  exists dates e, idx !! a = Some dates /\ In e dates
                  /\ - tol <= toordinal d - toordinal e <= tol.
Proof.
  unfold is_duplicate, days_between. destruct (idx !! a) as [dates|] eqn:E.
  - rewrite existsb_exists. split.
    + intros (e & Hin & Hle). exists dates, e. repeat split; try done; lia.
    + intros (dates' & e & Heq & Hin & Hle). inversion Heq; subst dates'.
      exists e. split; [done | lia].
  - split; [done | intros (? & ? & ? & _); done].
Qed.

(** C1. A candidate is classified duplicate exactly when the index has an
    entry for its minor-unit amount and a date of that entry is at most
    [tol] days away from the candidate's date, on either side. The row
    dated 2024-03-10 with amount -50.00, against a ledger transaction of
    2024-03-13 with amount -50.00 (-50000 minor units), is a duplicate at
    tolerance 5 and not at tolerance 2. *)
Theorem reconciler_duplicate_classification :
  (forall tol (idx : gmap Z (list date)) d a,
      is_duplicate tol idx d a = true <->
      exists dates e, idx !! a = Some dates /\ In e dates
                      /\ Z.abs (toordinal d - toordinal e) <= tol)
  /\ read_row (row_of "2024-03-10" "-50.00") = RowOk (mkdate 2024 3 10) (-50000)
  /\ is_duplicate 5 (build_index ledger_example) (mkdate 2024 3 10) (-50000) = true
  /\ is_duplicate 2 (build_index ledger_example) (mkdate 2024 3 10) (-50000) = false.
Proof.
  split; [| by vm_compute].
  intros tol idx d a. rewrite is_duplicate_spec.
  split; intros (dates & e & ? & ? & ?); exists dates, e; repeat split; try done; lia.
Qed.

(** *** The classification loop *)

Lemma classify_step_index tol cmap st c :
  existing_by_amount (classify_step tol cmap st c) = existing_by_amount st.
Proof.
  destruct c as [[d a] row]. unfold classify_step.
  by destruct (is_duplicate tol (existing_by_amount st) d a).
Qed.

Lemma classify_step_batch tol cmap st c :
  transactions_to_import (classify_step tol cmap st c) =
  transactions_to_import st
  ++ (if cand_dup tol (existing_by_amount st) c then [] else [make_tx cmap c]).
Proof.
  destruct c as [[d a] row]. unfold classify_step, cand_dup. simpl.
  destruct (is_duplicate tol (existing_by_amount st) d a); simpl;
    [by rewrite app_nil_r | done].
Qed.

Lemma classify_step_skipped tol cmap st c :
  skipped_duplicates (classify_step tol cmap st c) =
  (skipped_duplicates st
   + (if cand_dup tol (existing_by_amount st) c then 1 else 0))%nat.
Proof.
  destruct c as [[d a] row]. unfold classify_step, cand_dup. simpl.
  destruct (is_duplicate tol (existing_by_amount st) d a); simpl; lia.
Qed.

Lemma classify_fold tol cmap cands : forall st,
  let st' := fold_left (classify_step tol cmap) cands st in
  existing_by_amount st' = existing_by_amount st
  /\ transactions_to_import st' =
     transactions_to_import st
     ++ map (make_tx cmap)
          (List.filter (fun c => negb (cand_dup tol (existing_by_amount st) c)) cands)
  /\ skipped_duplicates st' =
     (skipped_duplicates st
      + List.length (List.filter (cand_dup tol (existing_by_amount st)) cands))%nat.
Proof.
  induction cands as [|c cands IH]; intros st; simpl.
  - split; [done | split; [by rewrite app_nil_r | lia]].
  - destruct (IH (classify_step tol cmap st c)) as (Hi & Hb & Hs).
    rewrite Hi, Hb, Hs, classify_step_index, classify_step_batch,
      classify_step_skipped.
    split; [done |].
    destruct (cand_dup tol (existing_by_amount st) c); simpl.
    + split; [by rewrite app_nil_r | lia].
    + split; [by rewrite <- app_assoc | lia].
Qed.

Lemma filter_keeps_both {A} (f : A -> bool) c pre mid post :
  f c = true ->
  exists l1 l2 l3,
    List.filter f (pre ++ c :: mid ++ c :: post) = l1 ++ c :: l2 ++ c :: l3.
Proof.
  intros Hc. exists (List.filter f pre), (List.filter f mid), (List.filter f post).
  rewrite List.filter_app. simpl. rewrite Hc, List.filter_app. simpl. by rewrite Hc.
Qed.

(** C10. The loop leaves the index as the fetch built it, and each candidate
    is kept or skipped by [is_duplicate] on that index and the candidate
    alone: the batch is the candidates that are not duplicates, in order. Two
    equal candidates that match nothing in the index are both in the batch,
    and the batch handed to the remote ledger is that list. *)
Theorem classification_independent_per_candidate :
  forall tol cmap (idx : gmap Z (list date)) (cands : list candidate),
    let st := classify tol cmap idx cands in
    existing_by_amount st = idx
    /\ transactions_to_import st =
       map (make_tx cmap) (List.filter (fun c => negb (cand_dup tol idx c)) cands)
    /\ (forall c pre mid post,
          cands = pre ++ c :: mid ++ c :: post ->
          is_duplicate tol idx c.1.1 c.1.2 = false ->
          exists l1 l2 l3,
            transactions_to_import st =
            l1 ++ make_tx cmap c :: l2 ++ make_tx cmap c :: l3)
    /\ (forall create,
          transactions_to_import st <> [] ->
          In (EvSubmit (transactions_to_import st)) (submit create st).1).
Proof.
  intros tol cmap idx cands st.
  destruct (classify_fold tol cmap cands (mkloop idx [] 0%nat [])) as (Hi & Hb & _).
  simpl in Hi, Hb. fold (classify tol cmap idx cands) in Hi, Hb. fold st in Hi, Hb.
  split; [done |]. split; [done |]. split.
  - intros c pre mid post -> Hc. rewrite Hb.
    destruct (filter_keeps_both (fun c => negb (cand_dup tol idx c)) c pre mid post)
      as (l1 & l2 & l3 & ->); [unfold cand_dup; by rewrite Hc |].
    exists (map (make_tx cmap) l1), (map (make_tx cmap) l2), (map (make_tx cmap) l3).
    by rewrite map_app, map_cons, map_app, map_cons.
  - intros create Hne. unfold submit.
    destruct (transactions_to_import st) as [|t batch] eqn:E; [done |].
    destruct (create (t :: batch)) as [[created duplicate]|msg]; simpl;
      rewrite in_app_iff; right; simpl; auto.
Qed.

(** *** A failed fetch *)

Lemma first_pass_min rows : forall acc m0 cands m,
  (m0 = None <-> acc = []) ->
  first_pass rows acc m0 = Some (cands, m) ->
  (m = None <-> cands = []).
Proof.
  induction rows as [|row rows IH]; intros acc m0 cands m Hinv; simpl.
  - intros [= <- <-]. done.
  - destruct (read_row row) as [| |d a]; [by apply IH | done |].
    apply IH. split.
    + destruct m0 as [m0|]; simpl; [by destruct (date_ltb d m0) | done].
    + by destruct acc.
Qed.

Lemma is_duplicate_empty tol d a : is_duplicate tol ∅ d a = false.
Proof. unfold is_duplicate. by rewrite lookup_empty. Qed.

Lemma filter_all {A} (f : A -> bool) l :
  (forall x, f x = true) -> List.filter f l = l.
Proof.
  intros H. induction l as [|x l IH]; simpl; [done |]. by rewrite H, IH.
Qed.

(** C9. When the listing of existing transactions fails, the run goes on: it
    prints the warning, the index is empty, no candidate is a duplicate,
    none is skipped, and the whole list of candidates is handed to the
    remote ledger; only the outcome of that submission decides how the run
    ends. *)
Theorem fetch_failure_degrades :
  forall get create tol cmap rows cands m msg,
    first_pass rows [] None = Some (cands, Some m) ->
    Z.abs tol <= 999999999 ->
    1 <= toordinal m - tol <= MAX_ORDINAL ->
    get (toordinal m - tol) = ApiException msg ->
    let st := classify tol cmap ∅ cands in
    let batch := map (make_tx cmap) cands in
    existing_by_amount st = ∅
    /\ (forall c, In c cands -> is_duplicate tol ∅ c.1.1 c.1.2 = false)
    /\ skipped_duplicates st = 0%nat
    /\ transactions_to_import st = batch
    /\ batch <> []
    /\ run get create tol (ApiOk cmap) rows =
       (EvCategoriesFetched :: EvWarnFetch msg :: warnings st
          ++ EvSubmit batch ::
             match create batch with
             | ApiOk (created, O) => [EvImported created]
             | ApiOk (created, S k) => [EvImported created; EvRemoteSkipped (S k)]
             | ApiException e => [EvErrorImporting e]
             end,
        match create batch with
        | ApiOk _ => Returned
        | ApiException _ => Exit1
        end).
Proof.
  intros get create tol cmap rows cands m msg Hfp Htol Hsince Hget st batch.
  destruct (classify_fold tol cmap cands (mkloop ∅ [] 0%nat [])) as (Hi & Hb & Hs).
  simpl in Hi, Hb, Hs. fold (classify tol cmap ∅ cands) in Hi, Hb, Hs.
  fold st in Hi, Hb, Hs.
  rewrite filter_all in Hb by (intros c; unfold cand_dup; by rewrite is_duplicate_empty).
  assert (Hnil : List.filter (cand_dup tol ∅) cands = []).
  { clear. induction cands as [|c l IH]; simpl; [done |].
    unfold cand_dup at 1. by rewrite is_duplicate_empty. }
  rewrite Hnil in Hs. simpl in Hs.
  assert (Hne : batch <> []).
  { unfold batch. intros Hmap. apply map_eq_nil in Hmap.
    apply (first_pass_min rows [] None cands (Some m)) in Hmap; done. }
  split; [done |]. split; [intros; apply is_duplicate_empty |].
  split; [done |]. split; [done |]. split; [done |].
  unfold run. rewrite Hfp. unfold load_existing.
  replace (Z.abs tol <=? 999999999) with true by (symmetry; apply Z.leb_le; lia).
  replace (1 <=? toordinal m - tol) with true by (symmetry; apply Z.leb_le; lia).
  replace (toordinal m - tol <=? MAX_ORDINAL) with true by (symmetry; apply Z.leb_le; lia).
  simpl. rewrite Hget. fold st. unfold submit. rewrite Hs, Hb. fold batch.
  destruct batch as [|t b] eqn:Eb; [done |].
  destruct (create (t :: b)) as [[created [|k]]|e]; simpl; done.
Qed.

(** ** Minor units at the import boundary *)

(** C8, at the amount -2.01. The import stage accepts the row and submits
    -2009 minor units: the binary64 nearest to -2.01, times 1000, is just
    above -2010, and [int] truncates it. The decimal -2.01 times 1000 is
    -2010 exactly. *)
Theorem import_amount_truncates_binary_product :
  read_row (row_of "2024-03-10" "-2.01") = RowOk (mkdate 2024 3 10) (-2009)
  /\ import_amount (lit "-2.01") = IntOk (-2009)
  /\ decimal_minor_units (lit "-2.01") = Some (-2010)
  /\ float_of_str (lit "-2.01") = Some (S754_finite true 4526117625507348 (-51))
  /\ fmul (S754_finite true 4526117625507348 (-51)) (float_of_Z 1000)
     = S754_finite true 8840073487319039 (-42).
Proof. by vm_compute. Qed.

(** ** The sign convention *)


(** ** Intra-batch deduplication *)

Lemma feq_true_iff (x y : float) :
  feq x y = true <->
  match x, y with
  | S754_zero _, S754_zero _ => True
  | S754_infinity s1, S754_infinity s2 => s1 = s2
  | S754_finite s1 m1 e1, S754_finite s2 m2 e2 => s1 = s2 /\ m1 = m2 /\ e1 = e2
  | _, _ => False
  end.
Proof.
  unfold feq, SFeqb.
  destruct x as [[]|[]| |[] m1 e1], y as [[]|[]| |[] m2 e2]; simpl; try done;
    try (split; [done | intros (? & _); done]);
    (destruct (Z.compare_spec e1 e2) as [->| |]; [| split; [done | lia] ..]);
    change (PosDef.Pos.compare_cont Eq m1 m2) with (m1 ?= m2)%positive;
    destruct (Pos.compare_spec m1 m2) as [->| |]; simpl;
    (split; [done | intros (_ & ? & _); lia]) || done.
Qed.

Lemma feq_trans x y z : feq x y = true -> feq y z = true -> feq x z = true.
Proof.
  rewrite !feq_true_iff.
  destruct x, y, z; try done; [congruence |].
  intros (-> & -> & ->) (-> & -> & ->). done.
Qed.

Lemma amount_eqb_trans a b c :
  amount_eqb a b = true -> amount_eqb b c = true -> amount_eqb a c = true.
Proof.
  destruct a as [x|], b as [y|], c as [z|]; simpl; try done.
  - apply feq_trans.
  - apply feq_trans.
  - intros. by apply (feq_trans _ fzero).
  - apply (feq_trans fzero).
Qed.

Lemma str_eqb_trans a b c :
  str_eqb a b = true -> str_eqb b c = true -> str_eqb a c = true.
Proof.
  unfold str_eqb. rewrite !bool_decide_eq_true. congruence.
Qed.

Lemma key_eqb_trans a b c :
  key_eqb a b = true -> key_eqb b c = true -> key_eqb a c = true.
Proof.
  unfold key_eqb. rewrite !andb_true_iff.
  intros [[H1 H2] H3] [[H4 H5] H6]. repeat split.
  - by apply (str_eqb_trans _ b.1.1).
  - by apply (amount_eqb_trans _ b.1.2).
  - by apply (str_eqb_trans _ b.2).
Qed.

(** The keys of the records seen so far and the members of [seen] match the
    same keys. *)
Lemma dedup_seen_prefix rows : forall k,
  existsb (key_eqb k) (fold_left dedup_step rows ([], [])).1
  = existsb (fun r => key_eqb k (row_key r)) rows.
Proof.
  induction rows as [|r rows IH] using rev_ind; intros k; [done |].
  rewrite fold_left_app, existsb_app. simpl. rewrite orb_false_r.
  unfold dedup_step at 1.
  destruct (existsb (key_eqb (row_key r)) (fold_left dedup_step rows ([], [])).1)
    eqn:E.
  - rewrite IH. destruct (key_eqb k (row_key r)) eqn:Ek; [| by rewrite orb_false_r].
    rewrite orb_true_r, <- IH.
    apply existsb_exists in E as (k' & Hin & Hk').
    apply existsb_exists. exists k'. eauto using key_eqb_trans.
  - simpl. rewrite IH. apply orb_comm.
Qed.

Lemma dedupe_snoc pre r :
  dedupe (pre ++ [r]) =
  dedupe pre
  ++ (if existsb (fun r' => key_eqb (row_key r) (row_key r')) pre then [] else [r]).
Proof.
  unfold dedupe. rewrite fold_left_app. simpl. unfold dedup_step at 1.
  rewrite dedup_seen_prefix.
  destruct (existsb _ pre); simpl; [by rewrite app_nil_r | done].
Qed.

Lemma dedupe_sublist rows : sublist (dedupe rows) rows.
Proof.
  induction rows as [|r rows IH] using rev_ind; [done |].
  rewrite dedupe_snoc. destruct (existsb _ rows).
  - rewrite app_nil_r. by apply sublist_inserts_r.
  - by apply sublist_app.
Qed.

Lemma amount_eqb_spec x y :
  amount_eqb x y = true <->
  amount_is_nan x = false /\ amount_is_nan y = false
  /\ (x = y \/ amount_is_zero x = true /\ amount_is_zero y = true).
Proof.
  destruct x as [x|], y as [y|]; cbn [amount_eqb amount_is_nan amount_is_zero];
    unfold fzero; rewrite ?feq_true_iff;
    try destruct x as [s1|s1| |s1 m1 e1]; try destruct y as [s2|s2| |s2 m2 e2];
    intuition (try congruence).
Qed.

Lemma amount_eqb_refl a : amount_is_nan a = false -> amount_eqb a a = true.
Proof. intros H. apply amount_eqb_spec. split; [done |]. split; [done | by left]. Qed.

Lemma amount_eqb_nan a b : amount_is_nan a = true -> amount_eqb a b = false.
Proof.
  intros H. destruct (amount_eqb a b) eqn:E; [| done].
  apply amount_eqb_spec in E as (E & _). congruence.
Qed.

Lemma key_eqb_refl r :
  amount_is_nan (Amount r) = false -> key_eqb (row_key r) (row_key r) = true.
Proof.
  intros H. unfold key_eqb, row_key, str_eqb. cbn [fst snd].
  by rewrite amount_eqb_refl, !bool_decide_eq_true_2.
Qed.

Lemma key_eqb_nan r k :
  amount_is_nan (Amount r) = true -> key_eqb (row_key r) k = false.
Proof.
  intros H. unfold key_eqb, row_key. cbn [fst snd].
  by rewrite amount_eqb_nan, andb_false_r.
Qed.


(** ** Date normalisation *)

Lemma str_eqb_eq a b : str_eqb a b = true <-> a = b.
Proof. unfold str_eqb. apply bool_decide_eq_true. Qed.

Lemma range_cases (P : Z -> Prop) (lo : Z) (n : nat) x :
  lo <= x < lo + Z.of_nat n ->
  List.Forall P (map (fun i => lo + Z.of_nat i) (seq 0 n)) -> P x.
Proof.
  intros H HF. rewrite List.Forall_forall in HF. apply HF. apply in_map_iff.
  exists (Z.to_nat (x - lo)). split; [lia | apply in_seq; lia].
Qed.

(** Splits a goal about [x] into one goal per value of its range. *)
Ltac each_case x lo n :=
  pattern x; apply (range_cases _ lo n x); [lia |];
  let l := eval vm_compute in (map (fun i => lo + Z.of_nat i) (seq 0 n)) in
  change (map (fun i => lo + Z.of_nat i) (seq 0 n)) with l;
  repeat (apply List.Forall_cons); [.. | apply List.Forall_nil]; cbv beta.

Lemma digit_char_facts k :
  0 <= k <= 9 ->
  is_digit (digit_char k) = true /\ digit_val (digit_char k) = k
  /\ is_space (digit_char k) = false.
Proof. intros H. each_case k 0 10%nat; done. Qed.

Lemma zpad2_facts n :
  0 <= n <= 99 ->
  exists a b, zpad2 n = [a; b] /\ is_digit a = true /\ is_digit b = true
              /\ is_space a = false /\ is_space b = false
              /\ group_int [a; b] = n.
Proof.
  intros H. unfold zpad2. do 2 eexists. split; [reflexivity |].
  destruct (digit_char_facts (n / 10)) as (D1 & V1 & S1);
    [clear -H; Z.div_mod_to_equations; lia |].
  destruct (digit_char_facts (n mod 10)) as (D2 & V2 & S2);
    [clear -H; Z.div_mod_to_equations; lia |].
  repeat split; try done.
  unfold group_int. simpl. rewrite D1, D2, V1, V2.
  clear. Z.div_mod_to_equations. lia.
Qed.

Lemma zpad4_facts y :
  0 <= y <= 9999 ->
  exists a b c e,
    zpad4 y = [a; b; c; e]
    /\ is_digit a = true /\ is_digit b = true /\ is_digit c = true
    /\ is_digit e = true /\ is_space a = false /\ is_space e = false
    /\ group_int [a; b; c; e] = y.
Proof.
  intros H. unfold zpad4. do 4 eexists. split; [reflexivity |].
  destruct (digit_char_facts (y / 1000)) as (D1 & V1 & S1);
    [clear -H; Z.div_mod_to_equations; lia |].
  destruct (digit_char_facts (y / 100 mod 10)) as (D2 & V2 & S2);
    [clear -H; Z.div_mod_to_equations; lia |].
  destruct (digit_char_facts (y / 10 mod 10)) as (D3 & V3 & S3);
    [clear -H; Z.div_mod_to_equations; lia |].
  destruct (digit_char_facts (y mod 10)) as (D4 & V4 & S4);
    [clear -H; Z.div_mod_to_equations; lia |].
  repeat split; try done.
  unfold group_int. simpl. rewrite D1, D2, D3, D4, V1, V2, V3, V4.
  clear. Z.div_mod_to_equations. lia.
Qed.

Lemma valid_date_range y m d :
  valid_date y m d = true -> 1 <= y <= 9999 /\ 1 <= m <= 12 /\ 1 <= d <= 31.
Proof.
  unfold valid_date. rewrite !andb_true_iff, !Z.leb_le.
  intros (((((? & ?) & ?) & ?) & ?) & Hd). repeat split; try done.
  revert Hd. each_case m 1 12%nat; unfold days_in_month;
    try destruct (is_leap y); lia.
Qed.


Ltac concrete_tokens :=
  repeat match goal with
         | |- context [zpad2 ?k] =>
             let v := eval vm_compute in (zpad2 k) in change (zpad2 k) with v
         | |- context [abbr_of ?k] =>
             let v := eval vm_compute in (abbr_of k) in change (abbr_of k) with v
         | |- context [name_of ?k] =>
             let v := eval vm_compute in (name_of k) in change (name_of k) with v
         end.

(** Decides the tests on known characters inside a goal. *)
Ltac eval_tests :=
  repeat match goal with
         | |- context [if ?b then _ else _] =>
             let v := eval vm_compute in b in
             first [constr_eq v true | constr_eq v false];
             change b with v; cbv iota
         end.


Lemma ws_plus_stop c rest : is_space c = false -> re_ws_plus (c :: rest) = [].
Proof. intros H. cbn. by rewrite H. Qed.

Arguments re_ws_plus : simpl never.

Ltac run_matcher :=
  repeat (progress (cbn; unfold re_bind; eval_tests;
                    rewrite ?ws_plus_stop by reflexivity));
  rewrite ?app_nil_r; try reflexivity.


Lemma m_then_lit m x its g rest :
  1 <= m <= 12 -> x = "-"%char \/ x = "/"%char ->
  re_format (Fmtm :: FmtLit x :: its) g (zpad2 m ++ x :: rest)
  = re_format its (set_m g (zpad2 m)) rest.
Proof.
  intros Hm [-> | ->]; revert its g rest; each_case m 1 12%nat; intros;
    concrete_tokens; run_matcher.
Qed.


Lemma d_last d g :
  1 <= d <= 31 ->
  exists tl, re_format [Fmtd] g (zpad2 d) = (set_d g (zpad2 d), []) :: tl.
Proof.
  intros Hd; revert g; each_case d 1 31%nat; intros;
    concrete_tokens; eexists; run_matcher.
Qed.



Lemma Y_then_dash y its g rest :
  0 <= y <= 9999 ->
  re_format (FmtY :: FmtLit "-" :: its) g (zpad4 y ++ "-"%char :: rest)
  = re_format its (set_Y g (zpad4 y)) rest.
Proof.
  intros Hy.
  destruct (zpad4_facts y Hy) as (a & b & c & e & -> & Ha & Hb & Hc & He & _).
  cbn. rewrite Ha. cbn. rewrite Hb. cbn. rewrite Hc. cbn. rewrite He. run_matcher.
Qed.




Lemma month_index_names m :
  1 <= m <= 12 ->
  month_index a_month (lower (abbr_of m)) = Some m
  /\ month_index f_month (lower (name_of m)) = Some m.
Proof. intros Hm. each_case m 1 12%nat; by vm_compute. Qed.

Lemma group_int_zpad2 n : 0 <= n <= 99 -> group_int (zpad2 n) = n.
Proof. intros H. by destruct (zpad2_facts n H) as (a & b & -> & _ & _ & _ & _ & ?). Qed.

Lemma group_int_zpad4 y : 0 <= y <= 9999 -> group_int (zpad4 y) = y.
Proof.
  intros H. by destruct (zpad4_facts y H) as (a & b & c & e & -> & _ & _ & _ & _ & _ & _ & ?).
Qed.













Section RoundTrip.

Variables (y m d : Z).
Hypothesis Hv : valid_date y m d = true.

Let Hy : 0 <= y <= 9999.
Proof. destruct (valid_date_range _ _ _ Hv). lia. Qed.
Let Hm : 1 <= m <= 12.
Proof. destruct (valid_date_range _ _ _ Hv). lia. Qed.
Let Hd : 1 <= d <= 31.
Proof. destruct (valid_date_range _ _ _ Hv). lia. Qed.

Ltac read_groups :=
  unfold date_of_groups, set_Y, set_m, set_d, set_b, set_B, no_groups;
  cbn [gY gm gd gb gB];
  rewrite ?group_int_zpad4, ?group_int_zpad2 by lia;
  rewrite ?(proj1 (month_index_names m Hm)), ?(proj2 (month_index_names m Hm)).

Lemma try_iso_iso : try_items F_iso (S_iso y m d) = Some (mkdate y m d).
Proof.
  unfold try_items, F_iso, S_iso.
  rewrite Y_then_dash, m_then_lit by auto.
  destruct (d_last d (set_m (set_Y no_groups (zpad4 y)) (zpad2 m)) Hd) as [tl ->].
  read_groups. by rewrite Hv.
Qed.











End RoundTrip.

Lemma year_str_zpad4 pad y : pad = true \/ 1000 <= y -> year_str pad y = zpad4 y.
Proof.
  unfold year_str. intros [-> | Hy]; [done |].
  replace (1000 <=? y) with true by (symmetry; apply Z.leb_le; lia).
  by rewrite orb_true_r.
Qed.

(** *** What a match tells about the text *)

Lemma re_bind_in {A B} (p : re A) (f : A -> re B) s b r :
  In (b, r) (re_bind p f s) <->
  exists a s1, In (a, s1) (p s) /\ In (b, r) (f a s1).
Proof.
  unfold re_bind. rewrite in_flat_map. split.
  - intros ([a s1] & H1 & H2). by exists a, s1.
  - intros (a & s1 & H1 & H2). by exists (a, s1).
Qed.

Lemma re_char_in f s c r :
  In (c, r) (re_char f s) <-> s = c :: r /\ f c = true.
Proof.
  unfold re_char. destruct s as [|c0 s]; [by split; [| intros []] |].
  destruct (f c0) eqn:E; cbn [In].
  - split; [intros [[= <- <-] | []]; by split | intros [[= -> ->] _]; by left].
  - split; [done | intros [[= -> ->] ?]; congruence].
Qed.

Lemma re_ret_in {A} (x y : A) s r : In (x, r) (re_ret y s) <-> x = y /\ r = s.
Proof.
  unfold re_ret. cbn [In]. split; [intros [[= -> ->] | []]; by split |].
  intros [-> ->]. by left.
Qed.









Lemma re_Y_in t r s :
  In (t, r) (re_Y s) ->
  s = t ++ r /\ List.length t = 4%nat /\ forallb is_digit t = true.
Proof.
  unfold re_Y. intros H.
  apply re_bind_in in H as (a & s1 & Ha & H).
  apply re_bind_in in H as (b & s2 & Hb & H).
  apply re_bind_in in H as (c & s3 & Hc & H).
  apply re_bind_in in H as (d & s4 & Hd & H).
  apply re_char_in in Ha as [-> Ha], Hb as [-> Hb], Hc as [-> Hc], Hd as [-> Hd].
  apply re_ret_in in H as [-> ->]. cbn. by rewrite Ha, Hb, Hc, Hd.
Qed.










(** *** What a matched item tells *)









Lemma re_format_cons_in it items g s g' r :
  In (g', r) (re_format (it :: items) g s) ->
  exists g1 s1, In (g1, s1) (re_item it g s) /\ In (g', r) (re_format items g1 s1).
Proof. cbn [re_format]. apply re_bind_in. Qed.



(** *** The tokens *)












(** *** What each format reads *)

Tactic Notation "peel" hyp(H) "as" ident(g1) ident(s1) ident(Hi) :=
  apply re_format_cons_in in H as (g1 & s1 & Hi & H).









(** *** Two formats on one text *)




(** *** The shape each format asks of the start of the text *)







(** *** [strip] *)






(** *** The month-first format on a day-first text *)





(** *** The first format that reads a text *)






Lemma strftime_ymd_iso pad d :
  pad = true \/ 1000 <= year d -> strftime_ymd pad d = isoformat d.
Proof.
  intros Hy. unfold strftime_ymd, isoformat.
  change (strftime pad ISO_FORMAT d)
    with (year_str pad (year d) ++ "-"%char :: zpad2 (month d) ++ "-"%char
            :: zpad2 (day d) ++ []).
  by rewrite (year_str_zpad4 pad _ Hy), app_nil_r.
Qed.





(** ** Validity of the normalised date *)

(** Every format goes through the [date] constructor. *)
Lemma strptime_valid s fmt dt :
  strptime s fmt = Some dt -> valid_date (year dt) (month dt) (day dt) = true.
Proof.
  unfold strptime.
  destruct (re_format (parse_format false fmt) no_groups s) as [|[g [|? ?]] ?];
    try done.
  unfold date_of_groups.
  destruct (match gm g with Some _ => _ | None => _ end) as [mm|]; [| done].
  destruct (valid_date _ mm _) eqn:E; [| done]. by intros [= <-].
Qed.

(** C7, at the text 2024-02-30. No format reads it, since February has no
    30th day; the pattern search then returns its digits as they are, and
    the result names no day of the calendar. The same result comes from
    02/30/2024. *)
Theorem parse_date_returns_impossible_date :
  forall pad,
    _parse_date pad (lit "2024-02-30") = Some (lit "2024-02-30")
    /\ _parse_date pad (lit "02/30/2024") = Some (lit "2024-02-30")
    /\ is_iso_date (lit "2024-02-30") = false
    /\ first_format (lit "2024-02-30") date_formats = None
    /\ is_iso_date (lit "2024-02-29") = true.
Proof. intros []; by vm_compute. Qed.

(** ** Amount normalisation *)

Lemma replace_char_filter x s :
  replace [x] [] s = List.filter (fun c => negb (Ascii.eqb x c)) s.
Proof.
  unfold replace. induction s as [|c s IH]; [done |].
  simpl. rewrite andb_true_r. destruct (Ascii.eqb x c); simpl; by rewrite IH.
Qed.

Lemma replace_code_skip s : replace (lit "CAD") [] (lit "CAD" ++ s) = replace (lit "CAD") [] s.
Proof. reflexivity. Qed.

Lemma replace_code_keep c s :
  starts_with (lit "CAD") (c :: s) = false ->
  replace (lit "CAD") [] (c :: s) = c :: replace (lit "CAD") [] s.
Proof.
  intros H.
  change (replace (lit "CAD") [] (c :: s))
    with (if starts_with (lit "CAD") (c :: s)
          then replace_from (lit "CAD") [] 2 s
          else c :: replace_from (lit "CAD") [] 0 s).
  by rewrite H.
Qed.

Lemma symbol_free_tail c b : symbol_free (c :: b) -> symbol_free b.
Proof.
  intros (H1 & H2 & H3). repeat split.
  - intros ?. apply H1. by right.
  - intros ?. apply H2. by right.
  - cbn [contains] in H3. apply orb_false_iff in H3. apply H3.
Qed.

Lemma decorated_coded b d :
  decorated b d -> ~ In ","%char b -> ~ In "$"%char b ->
  coded b (replace (lit "$") [] (replace (lit ",") [] d)).
Proof.
  change (lit "$") with ["$"%char]. change (lit ",") with [","%char].
  rewrite !replace_char_filter.
  induction 1 as [|c b d _ IH| b d _ IH | b d _ IH | b d _ IH]; intros Hc Hd.
  - constructor.
  - assert (Ascii.eqb "," c = false) as E1.
    { apply Ascii.eqb_neq. intros <-. apply Hc. by left. }
    assert (Ascii.eqb "$" c = false) as E2.
    { apply Ascii.eqb_neq. intros <-. apply Hd. by left. }
    cbn [List.filter]. rewrite E1. cbn [negb List.filter]. rewrite E2. cbn [negb].
    constructor. apply IH.
    + intros ?. apply Hc. by right.
    + intros ?. apply Hd. by right.
  - simpl. by apply IH.
  - simpl. by apply IH.
  - simpl. apply cod_code. by apply IH.
Qed.

Lemma starts_with_prefix p s : starts_with p s = true <-> exists r, s = p ++ r.
Proof.
  revert s. induction p as [|a p IH]; intros s; cbn [starts_with].
  - split; [by exists s | done].
  - destruct s as [|b s]; [split; [done | by intros (? & ?)] |].
    rewrite andb_true_iff, Ascii.eqb_eq, IH. split.
    + intros (-> & r & ->). by exists r.
    + intros (r & Hr). injection Hr as -> ->. eauto.
Qed.

Lemma coded_undone b d :
  coded b d -> contains (lit "CAD") b = false -> replace (lit "CAD") [] d = b.
Proof.
  induction 1 as [|c b d Hbd IH | b d _ IH]; intros Hfree.
  - done.
  - cbn [contains] in Hfree. apply orb_false_iff in Hfree as [Hs Hfree].
    rewrite replace_code_keep, IH; try done.
    destruct (starts_with (lit "CAD") (c :: d)) eqn:E; [| done].
    exfalso. apply starts_with_prefix in E as (r & E).
    injection E as -> ->.
    inversion Hbd as [| ? b1 ? Hbd1 | ]; subst.
    inversion Hbd1 as [| ? b2 ? Hbd2 | ]; subst.
    assert (starts_with (lit "CAD") (lit "CAD" ++ b2) = true)
      by (apply starts_with_prefix; eauto).
    change ("C"%char :: "A"%char :: "D"%char :: b2) with (lit "CAD" ++ b2) in Hs.
    congruence.
  - rewrite replace_code_skip. by apply IH.
Qed.

Lemma undecorate_decorated b d : symbol_free b -> decorated b d -> undecorate d = b.
Proof.
  intros (H1 & H2 & H3) Hd. unfold undecorate.
  apply coded_undone; [by apply decorated_coded | done].
Qed.

Lemma decorated_refl b : decorated b b.
Proof. induction b; by constructor. Qed.

Lemma undecorate_free b : symbol_free b -> undecorate b = b.
Proof. intros H. apply undecorate_decorated; [done | apply decorated_refl]. Qed.

(** *** White space around the text *)

Lemma lstrip_spaces w s : all_space w -> lstrip (w ++ s) = lstrip s.
Proof.
  unfold all_space. induction w as [|c w IH]; [done |]. cbn [forallb app lstrip].
  intros [Hc Hw]%andb_true_iff. rewrite Hc. by apply IH.
Qed.

Lemma lstrip_split s : exists w, all_space w /\ s = w ++ lstrip s.
Proof.
  induction s as [|c s (w & Hw & IH)]; [by exists [] |]. cbn [lstrip].
  destruct (is_space c) eqn:E.
  - exists (c :: w). split; [unfold all_space; cbn [forallb]; by rewrite E | ].
    cbn [app]. by rewrite <- IH.
  - by exists [].
Qed.

Lemma all_space_rev w : all_space w -> all_space (rev w).
Proof.
  unfold all_space. rewrite !forallb_forall. intros H x Hx. apply H.
  by apply in_rev.
Qed.

Lemma rstrip_spaces s w : all_space w -> rstrip (s ++ w) = rstrip s.
Proof.
  intros Hw. unfold rstrip. rewrite rev_app_distr, lstrip_spaces; [done |].
  by apply all_space_rev.
Qed.

Lemma rstrip_split s : exists w, all_space w /\ s = rstrip s ++ w.
Proof.
  destruct (lstrip_split (rev s)) as (w & Hw & Hs). exists (rev w).
  split; [by apply all_space_rev |]. unfold rstrip.
  rewrite <- rev_app_distr, <- Hs. by rewrite rev_involutive.
Qed.

Lemma strip_split s :
  exists w1 w2, all_space w1 /\ all_space w2 /\ s = w1 ++ strip s ++ w2.
Proof.
  destruct (lstrip_split s) as (w1 & H1 & Hs).
  destruct (rstrip_split (lstrip s)) as (w2 & H2 & Hl).
  exists w1, w2. repeat split; try done. unfold strip. by rewrite <- Hl.
Qed.

Lemma lstrip_all_space w : all_space w -> lstrip w = [].
Proof. intros H. rewrite <- (app_nil_r w). by rewrite lstrip_spaces. Qed.

Lemma lstrip_app s t :
  lstrip (s ++ t) = match lstrip s with [] => lstrip t | r => r ++ t end.
Proof.
  induction s as [|c s IH]; [reflexivity |]. cbn [app lstrip].
  by destruct (is_space c).
Qed.

Lemma strip_affixes w1 s w2 :
  all_space w1 -> all_space w2 -> strip (w1 ++ s ++ w2) = strip s.
Proof.
  intros H1 H2. unfold strip. rewrite lstrip_spaces, lstrip_app by done.
  destruct (lstrip s) as [|c r] eqn:E.
  - by rewrite lstrip_all_space.
  - by rewrite rstrip_spaces.
Qed.

(** The removals leave white space where it is. *)
Lemma filter_affixes (f : ascii -> bool) w1 s w2 :
  (forall c, is_space c = true -> f c = true) ->
  all_space w1 -> all_space w2 ->
  List.filter f (w1 ++ s ++ w2) = w1 ++ List.filter f s ++ w2.
Proof.
  intros Hf H1 H2.
  assert (Hw : forall w, all_space w -> List.filter f w = w).
  { intros w Hw. unfold all_space in Hw. rewrite forallb_forall in Hw.
    induction w as [|c w IH]; [done |]. cbn [List.filter].
    rewrite Hf by (apply Hw; by left). f_equal. apply IH.
    intros x Hx. apply Hw. by right. }
  rewrite !List.filter_app, (Hw w1 H1), (Hw w2 H2). done.
Qed.

Lemma space_not_letter x c : is_space x = false -> is_space c = true -> Ascii.eqb x c = false.
Proof.
  intros Hx Hc. destruct (Ascii.eqb_spec x c) as [-> |]; [congruence | done].
Qed.

Lemma starts_with_spaces p w :
  p <> [] -> (forall x, In x p -> is_space x = false) -> all_space w ->
  starts_with p w = false.
Proof.
  intros Hp Hx Hw. destruct p as [|a p]; [done |]. destruct w as [|c w]; [done |].
  cbn [starts_with]. unfold all_space in Hw. cbn [forallb] in Hw.
  apply andb_true_iff in Hw as [Hc _].
  rewrite (space_not_letter a c); [done | | done]. apply Hx. by left.
Qed.

Lemma starts_with_code_spaces s w :
  all_space w ->
  starts_with (lit "CAD") (s ++ w) = starts_with (lit "CAD") s
  /\ (starts_with (lit "CAD") s = true -> (3 <= List.length s)%nat).
Proof.
  intros Hw.
  assert (H3 := starts_with_spaces (lit "CAD") w).
  assert (H2 := starts_with_spaces (lit "AD") w).
  assert (H1 := starts_with_spaces (lit "D") w).
  destruct s as [|a [|b [|c s]]].
  - cbn [app]. rewrite H3; [done | done | | done].
    intros x [<- | [<- | [<- | []]]]; reflexivity.
  - change (starts_with (lit "CAD") ([a] ++ w))
      with (Ascii.eqb "C" a && starts_with (lit "AD") w).
    change (starts_with (lit "CAD") [a]) with (Ascii.eqb "C" a && false).
    rewrite H2; [by rewrite !andb_false_r | done | | done].
    intros x [<- | [<- | []]]; reflexivity.
  - change (starts_with (lit "CAD") ([a; b] ++ w))
      with (Ascii.eqb "C" a && (Ascii.eqb "A" b && starts_with (lit "D") w)).
    change (starts_with (lit "CAD") [a; b])
      with (Ascii.eqb "C" a && (Ascii.eqb "A" b && false)).
    rewrite H1; [by rewrite !andb_false_r | done | | done].
    intros x [<- | []]; reflexivity.
  - split; [reflexivity |]. intros _. cbn [List.length]. lia.
Qed.

Lemma replace_code_leading w s :
  all_space w -> replace (lit "CAD") [] (w ++ s) = w ++ replace (lit "CAD") [] s.
Proof.
  unfold all_space. induction w as [|c w IH]; [done |]. cbn [forallb app].
  intros [Hc Hw]%andb_true_iff. rewrite replace_code_keep, IH; [done | done |].
  cbn [starts_with lit list_ascii_of_string].
  by rewrite (space_not_letter "C" c).
Qed.

Lemma replace_code_trailing s w : forall k,
  all_space w -> (k <= List.length s)%nat ->
  replace_from (lit "CAD") [] k (s ++ w) = replace_from (lit "CAD") [] k s ++ w.
Proof.
  intros k Hw. revert k. induction s as [|c s IH]; intros k Hk.
  - cbn [List.length] in Hk. replace k with 0%nat by lia. cbn [app replace_from].
    pose proof (replace_code_leading w [] Hw) as H.
    change (replace (lit "CAD") [] []) with (@nil ascii) in H.
    rewrite app_nil_r in H. exact H.
  - destruct k as [|k].
    + destruct (starts_with_code_spaces (c :: s) w Hw) as [Heq Hlen].
      change (replace_from (lit "CAD") [] 0 ((c :: s) ++ w))
        with (if starts_with (lit "CAD") ((c :: s) ++ w)
              then replace_from (lit "CAD") [] 2 (s ++ w)
              else c :: replace_from (lit "CAD") [] 0 (s ++ w)).
      change (replace_from (lit "CAD") [] 0 (c :: s))
        with (if starts_with (lit "CAD") (c :: s)
              then replace_from (lit "CAD") [] 2 s
              else c :: replace_from (lit "CAD") [] 0 s).
      rewrite Heq. destruct (starts_with (lit "CAD") (c :: s)).
      * apply IH. specialize (Hlen eq_refl). cbn [List.length] in Hlen. lia.
      * cbn [app]. f_equal. apply IH. lia.
    + cbn [app replace_from]. apply IH. cbn [List.length] in Hk. lia.
Qed.

Lemma undecorate_affixes w1 s w2 :
  all_space w1 -> all_space w2 ->
  undecorate (w1 ++ s ++ w2) = w1 ++ undecorate s ++ w2.
Proof.
  intros H1 H2. unfold undecorate.
  change (lit "$") with ["$"%char]. change (lit ",") with [","%char].
  rewrite !replace_char_filter.
  rewrite !(filter_affixes _ w1 _ w2); try done.
  - rewrite replace_code_leading by done. f_equal.
    apply (replace_code_trailing _ w2 0%nat); [done | lia].
  - intros c Hc. by rewrite (space_not_letter "$" c).
  - intros c Hc. by rewrite (space_not_letter "," c).
Qed.

Lemma strip_undecorate s : strip (undecorate (strip s)) = strip (undecorate s).
Proof.
  destruct (strip_split s) as (w1 & w2 & H1 & H2 & Hs).
  rewrite Hs at 2. by rewrite undecorate_affixes, strip_affixes.
Qed.

Lemma parse_amount_undecorate s :
  _parse_amount s =
  if is_blank s then None else float_of_str (strip (undecorate s)).
Proof. unfold _parse_amount. fold (undecorate (strip s)). by rewrite strip_undecorate. Qed.

(** C5. Commas, dollar signs and the code CAD, put anywhere into a text that
    has none of them, do not change the amount read from it, nor whether one
    is read. *)
Theorem parse_amount_ignores_decorations :
  forall b d,
    symbol_free b -> decorated b d -> _parse_amount d = _parse_amount b.
Proof.
  intros b d Hb Hd. rewrite !parse_amount_undecorate.
  rewrite (undecorate_decorated b d Hb Hd), (undecorate_free b Hb).
  unfold is_blank.
  assert (Hsd : strip b = strip (undecorate (strip d)))
    by by rewrite strip_undecorate, (undecorate_decorated b d Hb Hd).
  destruct (strip d) as [|c r] eqn:Ed.
  - change (undecorate []) with (@nil ascii) in Hsd. change (strip []) with (@nil ascii) in Hsd.
    by rewrite Hsd.
  - destruct (strip b); [reflexivity | done].
Qed.

Lemma parse_amount_ignores_decorations_witness :
  _parse_amount (lit " $1,234.50 CAD ") = _parse_amount (lit " 1234.50  ").
Proof.
  apply parse_amount_ignores_decorations.
  - split; [| split]; [| | reflexivity];
      intros H; cbn in H; repeat (destruct H as [H | H]; [discriminate H |]);
      exact H.
  - change (lit " $1,234.50 CAD ") with (" "%char :: "$"%char :: "1"%char :: ","%char :: lit "234.50 " ++ lit "CAD" ++ lit " ").
    repeat (apply dec_char || apply dec_dollar || apply dec_comma).
    change (lit "234.50  ") with (lit "234.50 " ++ lit " ").
    change (lit "234.50 " ++ lit "CAD" ++ lit " ") with ("2"%char :: "3"%char :: "4"%char :: "."%char :: "5"%char :: "0"%char :: " "%char :: lit "CAD" ++ lit " ").
    repeat apply dec_char. apply dec_code. repeat constructor.
Defined.

(** The claim as worded fails on another currency code. *)
Lemma other_currency_code_not_stripped :
  _parse_amount (lit "USD 12.99") = None
  /\ _parse_amount (lit "12.99") = Some (S754_finite false 7312719894942843 (-49)).
Proof. by vm_compute. Qed.

(** ** Column resolution *)

Lemma dict_get_set {V} x n (v : V) d :
  dict_get x (dict_set n v d) = if str_eqb n x then Some v else dict_get x d.
Proof.
  induction d as [|[k' v'] d IH]; cbn [dict_set dict_get]; [done |].
  destruct (str_eqb k' n) eqn:E; cbn [dict_get].
  - apply str_eqb_eq in E as ->. by destruct (str_eqb n x).
  - rewrite IH. destruct (str_eqb k' x) eqn:E2, (str_eqb n x) eqn:E3; try done.
    apply str_eqb_eq in E2, E3. subst. by rewrite (proj2 (str_eqb_eq x x)) in E.
Qed.

Lemma keys_lower_snoc keys k :
  keys_lower (keys ++ [k]) = dict_set (norm k) k (keys_lower keys).
Proof. unfold keys_lower. by rewrite fold_left_app. Qed.

Lemma last_named_snoc x keys k :
  last_named x (keys ++ [k]) =
  if str_eqb (norm k) x then Some k else last_named x keys.
Proof. unfold last_named. by rewrite rev_unit. Qed.

Lemma dict_get_keys_lower x keys : dict_get x (keys_lower keys) = last_named x keys.
Proof.
  induction keys as [|k keys IH] using rev_ind; [done |].
  by rewrite keys_lower_snoc, dict_get_set, last_named_snoc, IH.
Qed.

Lemma exact_pass_spec keys candidates :
  exact_pass (keys_lower keys) candidates =
  first_some (fun c => last_named (lower c) keys) candidates.
Proof.
  induction candidates as [|c rest IH]; [done |]. cbn [exact_pass first_some].
  by rewrite dict_get_keys_lower, IH.
Qed.

Lemma dict_set_keys {V} n (v : V) d :
  map fst (dict_set n v d) =
  if existsb (fun k => str_eqb k n) (map fst d) then map fst d else map fst d ++ [n].
Proof.
  induction d as [|[k' v'] d IH]; cbn [dict_set map existsb fst]; [done |].
  destruct (str_eqb k' n) eqn:E; cbn [orb map fst]; [done |].
  rewrite IH. by destruct (existsb _ (map fst d)).
Qed.

Lemma partial_inner_find c (d : list (str * str)) :
  partial_inner c d =
  match List.find (fun n => contains (squash c) (squash n)) (map fst d) with
  | Some n => dict_get n d
  | None => None
  end.
Proof.
  induction d as [|[k v] d IH]; cbn [partial_inner map List.find fst]; [done |].
  destruct (contains (squash c) (squash k)) eqn:E.
  - cbn [dict_get]. by rewrite (proj2 (str_eqb_eq k k) eq_refl).
  - rewrite IH. destruct (List.find _ (map fst d)) as [n|] eqn:F; [| done].
    cbn [dict_get]. destruct (str_eqb k n) eqn:E2; [| done].
    apply str_eqb_eq in E2 as ->. apply find_some in F as [_ F]. congruence.
Qed.

Lemma find_snoc {A} (P : A -> bool) l x :
  List.find P (l ++ [x]) =
  match List.find P l with
  | Some y => Some y
  | None => if P x then Some x else None
  end.
Proof.
  induction l as [|a l IH]; cbn [app List.find]; [done |]. by destruct (P a).
Qed.

Lemma keys_lower_names c keys :
  List.find (fun n => contains (squash c) (squash n)) (map fst (keys_lower keys))
  = option_map norm (first_containing c keys).
Proof.
  unfold first_containing.
  induction keys as [|k keys IH] using rev_ind; [done |].
  rewrite keys_lower_snoc, dict_set_keys, find_snoc.
  destruct (existsb (fun k0 => str_eqb k0 (norm k)) (map fst (keys_lower keys)))
    eqn:E.
  - rewrite IH. destruct (List.find _ keys) as [kf|] eqn:F; [done |].
    cbn [option_map] in IH.
    apply existsb_exists in E as (n & Hn & ->%str_eqb_eq).
    by rewrite (find_none _ _ IH _ Hn).
  - rewrite find_snoc, IH. destruct (List.find _ keys) as [kf|]; [done |].
    cbn [option_map]. by destruct (contains _ _).
Qed.

Lemma partial_pass_spec keys candidates :
  partial_pass (keys_lower keys) candidates =
  first_some
    (fun c =>
       match first_containing c keys with
       | Some kf => last_named (norm kf) keys
       | None => None
       end)
    candidates.
Proof.
  induction candidates as [|c rest IH]; [done |]. cbn [partial_pass first_some].
  rewrite partial_inner_find, keys_lower_names, IH.
  destruct (first_containing c keys) as [kf|]; cbn [option_map]; [| done].
  by rewrite dict_get_keys_lower.
Qed.

Lemma first_some_none {A B} (f : A -> option B) l :
  first_some f l = None <-> forall x, In x l -> f x = None.
Proof.
  induction l as [|a l IH]; cbn [first_some In]; [by split |].
  destruct (f a) eqn:E.
  - split; [done |]. intros H. specialize (H a (or_introl eq_refl)). congruence.
  - rewrite IH. split; [intros H x [<- | Hx]; auto | auto].
Qed.

Lemma last_named_none x keys :
  last_named x keys = None <-> forall k, In k keys -> norm k <> x.
Proof.
  unfold last_named. split.
  - intros H k Hk E. apply in_rev in Hk.
    pose proof (find_none _ _ H k Hk) as F. cbn beta in F.
    apply not_true_iff_false in F. apply F. by apply str_eqb_eq.
  - intros H. destruct (List.find _ (rev keys)) as [k|] eqn:F; [| done].
    apply find_some in F as [Hk F]. apply str_eqb_eq in F.
    exfalso. apply (H k); [by apply in_rev | done].
Qed.

Lemma first_containing_none c keys :
  first_containing c keys = None <->
  forall k, In k keys -> contains (squash c) (squash (norm k)) = false.
Proof.
  unfold first_containing. split.
  - intros H k Hk. apply (find_none _ _ H k Hk).
  - intros H. destruct (List.find _ keys) as [k|] eqn:F; [| done].
    apply find_some in F as [Hk F]. rewrite (H k Hk) in F. done.
Qed.

(** C6, as the code has it. Column names are compared trimmed and in lower
    case. The first pass returns, for the first alias whose lowercased form
    is such a name, the last column with that name. If no alias matches so,
    the second pass takes the aliases in order again and, for the first one
    that is contained in some column's name once the blanks and periods of
    both are removed, returns the last column named as the first such
    column. The result is none exactly when no alias matches in either
    way. *)
Theorem find_column_two_passes :
  forall keys candidates,
    _find_column keys candidates = resolve_alias_major keys candidates
    /\ (_find_column keys candidates = None <->
        forall c k, In c candidates -> In k keys ->
                    norm k <> lower c
                    /\ contains (squash c) (squash (norm k)) = false).
Proof.
  intros keys candidates.
  assert (Heq : _find_column keys candidates = resolve_alias_major keys candidates).
  { unfold _find_column, resolve_alias_major.
    by rewrite exact_pass_spec, partial_pass_spec. }
  split; [done |]. rewrite Heq. unfold resolve_alias_major.
  destruct (first_some (fun c => last_named (lower c) keys) candidates) as [k0|] eqn:E1.
  - split; [done |]. intros H. exfalso.
    assert (first_some (fun c => last_named (lower c) keys) candidates = None);
      [| congruence].
    apply first_some_none. intros c Hc. apply last_named_none.
    intros k Hk. by apply H.
  - rewrite first_some_none in E1. rewrite first_some_none. split.
    + intros H c k Hc Hk. split.
      * specialize (E1 c Hc). rewrite last_named_none in E1. by apply E1.
      * specialize (H c Hc). cbn beta in H.
        destruct (first_containing c keys) as [kf|] eqn:F.
        -- exfalso. rewrite last_named_none in H.
           apply find_some in F as [Hkf _]. by apply (H kf).
        -- rewrite first_containing_none in F. by apply F.
    + intros H c Hc.
      assert (F : first_containing c keys = None).
      { apply first_containing_none. intros k Hk. by apply H. }
      by rewrite F.
Qed.

(** The claim's wording against the code: a hyphen is punctuation, and the
    code removes blanks and periods only. *)
Lemma hyphen_is_not_stripped :
  _find_column [lit "Order-Total"] [lit "order total"] = None
  /\ resolve_as_claimed [lit "Order-Total"] [lit "order total"]
     = Some (lit "Order-Total").
Proof. by vm_compute. Qed.

(** The second pass goes by alias first, not by column first. *)
Lemma second_pass_is_alias_major :
  _find_column [lit "order id"; lit "ship date"] [lit "date"; lit "order"]
  = Some (lit "ship date")
  /\ resolve_as_claimed [lit "order id"; lit "ship date"] [lit "date"; lit "order"]
     = Some (lit "order id").
Proof. by vm_compute. Qed.

(** ** Instances *)



Lemma reconciler_duplicate_classification_witness :
  exists dates e,
    build_index ledger_example !! (-50000) = Some dates /\ In e dates
    /\ Z.abs (toordinal (mkdate 2024 3 10) - toordinal e) <= 5.
Proof.
  apply (proj1 (proj1 reconciler_duplicate_classification 5
                  (build_index ledger_example) (mkdate 2024 3 10) (-50000))).
  by vm_compute.
Defined.

Lemma classification_independent_per_candidate_witness :
  exists l1 l2 l3,
    transactions_to_import
      (classify 2 ∅ (build_index ledger_example) [candidate_example; candidate_example])
    = l1 ++ make_tx ∅ candidate_example :: l2 ++ make_tx ∅ candidate_example :: l3.
Proof.
  apply (proj1 (proj2 (proj2 (classification_independent_per_candidate 2 ∅
                                (build_index ledger_example)
                                [candidate_example; candidate_example])))
           candidate_example [] [] []).
  - reflexivity.
  - by vm_compute.
Defined.

Lemma fetch_failure_degrades_witness :
  transactions_to_import (classify 5 ∅ ∅ [candidate_example])
  = map (make_tx ∅) [candidate_example].
Proof.
  destruct (fetch_failure_degrades failing_fetch accepting_create 5 ∅
              [row_of "2024-03-10" "-50.00"] [candidate_example]
              (mkdate 2024 3 10) (lit "timeout"))
    as (_ & _ & _ & H & _).
  - vm_cast_no_check
      (eq_refl (Some ([candidate_example], Some (mkdate 2024 3 10)))).
  - lia.
  - by vm_compute.
  - reflexivity.
  - exact H.
Defined.




Lemma find_column_two_passes_witness :
  norm (lit "Order-Total") <> lower (lit "order total")
  /\ contains (squash (lit "order total")) (squash (norm (lit "Order-Total"))) = false.
Proof.
  apply (proj1 (proj2 (find_column_two_passes [lit "Order-Total"] [lit "order total"]))).
  - reflexivity.
  - left. reflexivity.
  - left. reflexivity.
Defined.

(** * Further properties *)

(** ** The calendar *)

Lemma year_length y :
  days_before_year (y + 1) = days_before_year y + (if is_leap y then 366 else 365).
Proof.
  unfold days_before_year, is_leap. replace (y + 1 - 1) with y by lia.
  destruct (Z.eqb_spec (y mod 4) 0), (Z.eqb_spec (y mod 100) 0),
    (Z.eqb_spec (y mod 400) 0); cbn [negb andb orb];
    Z.div_mod_to_equations; lia.
Qed.

Lemma days_before_year_mono a b : a <= b -> days_before_year a <= days_before_year b.
Proof. unfold days_before_year. intros H. Z.div_mod_to_equations. lia. Qed.

Lemma day_of_year_bounds y m d :
  valid_date y m d = true ->
  1 <= days_before_month y m + d <= (if is_leap y then 366 else 365).
Proof.
  intros Hv. destruct (valid_date_range _ _ _ Hv) as (_ & Hm & _).
  unfold valid_date in Hv. rewrite !andb_true_iff, !Z.leb_le in Hv.
  destruct Hv as (((((_ & _) & _) & _) & Hd1) & Hd2). revert Hd2.
  each_case m 1 12%nat; unfold days_in_month, days_before_month; cbn [Z.ltb Z.compare Pos.compare Pos.compare_cont andb];
    destruct (is_leap y); lia.
Qed.

Lemma month_order y m1 d1 m2 d2 :
  valid_date y m1 d1 = true -> valid_date y m2 d2 = true -> m1 < m2 ->
  days_before_month y m1 + d1 < days_before_month y m2 + d2.
Proof.
  intros H1 H2 Hlt.
  destruct (valid_date_range _ _ _ H1) as (_ & Hm1 & _).
  destruct (valid_date_range _ _ _ H2) as (_ & Hm2 & _).
  unfold valid_date in H1, H2. rewrite !andb_true_iff, !Z.leb_le in H1, H2.
  destruct H1 as (((((_ & _) & _) & _) & _) & Hd1).
  destruct H2 as (((((_ & _) & _) & _) & Hd2) & _).
  revert Hd1 Hlt. each_case m1 1 12%nat; each_case m2 1 12%nat;
    unfold days_in_month, days_before_month;
    cbn [Z.ltb Z.compare Pos.compare Pos.compare_cont andb];
    destruct (is_leap y); lia.
Qed.

Lemma toordinal_lt_lex a b :
  date_ok a = true -> date_ok b = true -> date_ltb a b = true ->
  toordinal a < toordinal b.
Proof.
  destruct a as [y1 m1 d1], b as [y2 m2 d2]. unfold date_ok, date_ltb, toordinal.
  cbn [year month day]. intros H1 H2.
  pose proof (day_of_year_bounds _ _ _ H1). pose proof (day_of_year_bounds _ _ _ H2).
  repeat (rewrite orb_true_iff || rewrite andb_true_iff).
  rewrite !Z.ltb_lt, !Z.eqb_eq.
  intros [Hy | [Ey [Hm | [Em Hd]]]].
  - pose proof (year_length y1). pose proof (days_before_year_mono (y1 + 1) y2).
    destruct (is_leap y1), (is_leap y2); lia.
  - subst y2. pose proof (month_order _ _ _ _ _ H1 H2 Hm). lia.
  - subst y2 m2. lia.
Qed.

Lemma date_ltb_total a b :
  date_ltb a b = false -> a = b \/ date_ltb b a = true.
Proof.
  destruct a as [y1 m1 d1], b as [y2 m2 d2]. unfold date_ltb. cbn [year month day].
  repeat (rewrite orb_false_iff || rewrite andb_false_iff
          || rewrite orb_true_iff || rewrite andb_true_iff).
  rewrite !Z.ltb_ge, !Z.ltb_lt, !Z.eqb_neq, !Z.eqb_eq.
  intros H.
  destruct (Z.lt_trichotomy y1 y2) as [? | [-> | ?]]; [lia | | right; lia].
  destruct (Z.lt_trichotomy m1 m2) as [? | [-> | ?]]; [lia | | right; lia].
  destruct (Z.lt_trichotomy d1 d2) as [? | [-> | ?]]; [lia | by left | right; lia].
Qed.

(** On dates the constructor accepts, the comparison of (year, month, day)
    and the comparison of day ordinals agree. *)
Lemma date_order_is_ordinal_order :
  forall a b,
    date_ok a = true -> date_ok b = true ->
    (date_ltb a b = true <-> toordinal a < toordinal b).
Proof.
  intros a b Ha Hb. split; [by apply toordinal_lt_lex |].
  intros Hlt. destruct (date_ltb a b) eqn:E; [done |].
  destruct (date_ltb_total a b E) as [-> | Hba]; [lia |].
  pose proof (toordinal_lt_lex b a Hb Ha Hba). lia.
Qed.

(** ** The first pass over the converted file *)

Lemma import_date_ok s d : import_date s = Some d -> date_ok d = true.
Proof.
  unfold import_date, date_ok.
  destruct (strptime s ISO_FORMAT) eqn:E.
  - intros [= <-]. by apply (strptime_valid _ _ _ E).
  - apply strptime_valid.
Qed.

Lemma read_row_ok row d a : read_row row = RowOk d a -> date_ok d = true.
Proof.
  unfold read_row. destruct (row_get_default row (lit "Date") []) as [dc|]; [| done].
  cbv zeta. destruct (strip dc) as [|c r]; [done |].
  destruct (import_date (c :: r)) as [d'|] eqn:E; [| done].
  destruct (row_get_default row (lit "Amount") (lit "0")) as [ac|]; [| done].
  destruct (import_amount _); try done. intros [= <- _].
  by apply (import_date_ok _ _ E).
Qed.

Lemma read_row_crash_iff row : read_row row = RowCrash <-> row_raises row.
Proof.
  unfold read_row, row_raises, row_get_default.
  destruct (row !! lit "Date") as [[dc|]|] eqn:Ed; cbn [default from_option id].
  - cbv zeta. split.
    + intros H. right. exists dc.
      destruct (strip dc) as [|c r] eqn:Es; [done |].
      destruct (import_date (c :: r)) as [d|] eqn:Ei; [| done].
      exists d. split; [done |]. split; [done |].
      destruct (row !! lit "Amount") as [[ac|]|] eqn:Ea; cbn [default from_option id] in *.
      * right. exists ac. split; [done |]. by destruct (import_amount _).
      * by left.
      * right. exists (lit "0"). split; [done |]. by destruct (import_amount _).
    + intros [H | (dc' & d & [= <-] & Hd & H)]; [done |].
      destruct (strip dc) as [|c r] eqn:Es; [by vm_compute in Hd |].
      rewrite Hd. destruct H as [-> | (ac & -> & ->)]; done.
  - split; [by left | done].
  - split; [done |]. intros [H | (dc' & d & [= <-] & Hd & _)]; [done |].
    by vm_compute in Hd.
Qed.

Lemma min_date_spec m0 d :
  date_ok d = true ->
  (forall m, m0 = Some m -> date_ok m = true) ->
  exists m, min_date m0 d = Some m /\ date_ok m = true
            /\ toordinal m <= toordinal d
            /\ (m = d \/ m0 = Some m)
            /\ (forall m', m0 = Some m' -> toordinal m <= toordinal m').
Proof.
  intros Hd Hm0. destruct m0 as [m0|]; cbn [min_date].
  - specialize (Hm0 m0 eq_refl). destruct (date_ltb d m0) eqn:E.
    + exists d. repeat split; auto; try lia. intros m' [= <-].
      pose proof (toordinal_lt_lex d m0 Hd Hm0 E). lia.
    + exists m0. repeat split; auto.
      * destruct (date_ltb_total d m0 E) as [-> | Hlt]; [lia |].
        pose proof (toordinal_lt_lex m0 d Hm0 Hd Hlt). lia.
      * intros m' [= <-]. lia.
  - exists d. repeat split; auto; try lia. done.
Qed.

Lemma first_pass_spec rows : forall acc m0,
  (forall m, m0 = Some m ->
     date_ok m = true /\ (exists c, In c acc /\ c.1.1 = m)
     /\ forall c, In c acc -> toordinal m <= toordinal c.1.1) ->
  (m0 = None -> acc = []) ->
  match first_pass rows acc m0 with
  | None => exists row, In row rows /\ read_row row = RowCrash
  | Some (cands, mm) =>
      cands = acc ++ omap candidate_of rows
      /\ (forall row, In row rows -> read_row row <> RowCrash)
      /\ (mm = None -> cands = [])
      /\ (forall m, mm = Some m ->
            (exists c, In c cands /\ c.1.1 = m)
            /\ forall c, In c cands -> toordinal m <= toordinal c.1.1)
  end.
Proof.
  induction rows as [|row rows IH]; intros acc m0 Hinv Hnone.
  - cbn [first_pass omap]. rewrite app_nil_r.
    split; [done |]. split; [by intros ? [] |]. split; [exact Hnone |].
    intros m E. by destruct (Hinv m E) as (_ & ? & ?).
  - cbn [first_pass].
    assert (Hc : omap candidate_of (row :: rows) =
                 match candidate_of row with
                 | Some c => c :: omap candidate_of rows
                 | None => omap candidate_of rows
                 end) by reflexivity.
    rewrite Hc. unfold candidate_of at 1. clear Hc.
    destruct (read_row row) as [| |d a] eqn:E.
    + specialize (IH acc m0 Hinv Hnone).
      destruct (first_pass rows acc m0) as [[cands mm]|].
      * destruct IH as (-> & Hno & H1 & H2).
        split; [done |]. split; [| by split].
        intros r [<- | Hr]; [congruence | by apply Hno].
      * destruct IH as (r & Hr & Hcr). exists r. split; [by right | done].
    + exists row. split; [by left | done].
    + pose proof (read_row_ok _ _ _ E) as Hd.
      destruct (min_date_spec m0 d Hd) as (m & Em & Hm & Hle & Hor & Hmin).
      { intros m' E'. by destruct (Hinv m' E'). }
      assert (Hinv' : forall m', Some m = Some m' ->
                date_ok m' = true
                /\ (exists c, In c (acc ++ [(d, a, row)]) /\ c.1.1 = m')
                /\ forall c, In c (acc ++ [(d, a, row)]) ->
                             toordinal m' <= toordinal c.1.1).
      { intros m' [= <-]. split; [done |]. split.
        - destruct Hor as [-> | E0].
          + exists (d, a, row). split; [apply in_app_iff; right; by left | done].
          + destruct (Hinv m E0) as (_ & (c & Hc & Ec) & _).
            exists c. split; [apply in_app_iff; by left | done].
        - intros c [Hc | [<- | []]]%in_app_iff; [| done].
          destruct m0 as [m0|]; [| by rewrite (Hnone eq_refl) in Hc].
          destruct (Hinv m0 eq_refl) as (_ & _ & Hall).
          specialize (Hall c Hc). specialize (Hmin m0 eq_refl). lia. }
      assert (Hnone' : Some m = None -> acc ++ [(d, a, row)] = []) by done.
      rewrite Em.
      match goal with
      | |- context [first_pass rows ?x ?y] =>
          specialize (IH x y Hinv' Hnone');
          destruct (first_pass rows x y) as [[cands mm]|]
      end.
      * destruct IH as (-> & Hno & H1 & H2).
        rewrite <- app_assoc in H1, H2 |- *.
        split; [done |]. split; [| split; [exact H1 | exact H2]].
        intros r [<- | Hr]; [congruence | by apply Hno].
      * destruct IH as (r & Hr & Hcr). exists r. split; [by right | done].
Qed.

Lemma in_omap_candidate d a row rows :
  In (d, a, row) (omap candidate_of rows) ->
  In row rows /\ read_row row = RowOk d a.
Proof.
  rewrite <- list_elem_of_In, list_elem_of_omap. intros (r & Hr & Hc).
  apply list_elem_of_In in Hr. unfold candidate_of in Hc.
  destruct (read_row r) as [| |d' a'] eqn:E; try done.
  injection Hc as -> -> ->. by split.
Qed.

Lemma first_pass_keeps_rows rows cands mm :
  first_pass rows [] None = Some (cands, mm) ->
  forall d a row, In (d, a, row) cands ->
                  In row rows /\ read_row row = RowOk d a.
Proof.
  intros Hfp d a row Hin.
  pose proof (first_pass_spec rows [] None ltac:(done) ltac:(done)) as H.
  match type of Hfp with
  | first_pass rows ?x ?y = _ =>
      match type of H with
      | context [first_pass rows ?x' ?y'] =>
          change (first_pass rows x' y') with (first_pass rows x y) in H
      end
  end.
  rewrite Hfp in H. destruct H as (-> & _). by apply in_omap_candidate.
Qed.

(** X1. The first pass keeps, in order, the rows whose date and amount
    parse. It stops with an exception exactly when some row raises one that
    is not caught: a Date cell that is [None] (a line shorter than the
    header), or, with a readable date, an Amount cell that is [None] or an
    amount whose thousandfold is infinite. The date it remembers is the
    earliest of the kept rows, and there is one unless no row is kept. *)
Theorem first_pass_keeps_readable_rows :
  forall rows,
    (forall row, read_row row = RowCrash <-> row_raises row)
    /\ match first_pass rows [] None with
       | None => exists row, In row rows /\ row_raises row
       | Some (cands, mm) =>
           cands = omap candidate_of rows
           /\ (forall row, In row rows -> ~ row_raises row)
           /\ (mm = None <-> cands = [])
           /\ (forall m, mm = Some m ->
                 (exists c, In c cands /\ c.1.1 = m)
                 /\ forall c, In c cands -> toordinal m <= toordinal c.1.1)
       end.
Proof.
  intros rows. split; [apply read_row_crash_iff |].
  match goal with
  | |- context [first_pass rows ?x ?y] =>
      pose proof (first_pass_spec rows x y ltac:(done) ltac:(done)) as H;
      pose proof (first_pass_min rows x y) as Hmin;
      destruct (first_pass rows x y) as [[cands mm]|]
  end.
  - destruct H as (-> & Hno & H1 & H2).
    split; [done |]. split; [| split; [by apply Hmin | done]].
    intros row Hrow Hr. apply (Hno row Hrow). by apply read_row_crash_iff.
  - destruct H as (row & Hrow & Hc). exists row. split; [done |].
    by apply read_row_crash_iff.
Qed.

(** X3. A row of a file without a Date column, or with a blank Date cell, is
    skipped, while a Date cell that is [None] (a line shorter than the
    header) raises an exception. With a readable date, a file without an
    Amount column gives the amount 0, a blank Amount cell skips the row, and
    an Amount cell that is [None] raises an exception. *)
Theorem missing_cells_skip_or_zero :
  forall (row : csv_row),
    (row !! lit "Date" = None -> read_row row = RowSkip)
    /\ (forall cell,
          row !! lit "Date" = Some (Some cell) -> is_blank cell = true ->
          read_row row = RowSkip)
    /\ (row !! lit "Date" = Some None -> read_row row = RowCrash)
    /\ (forall cell d,
          row !! lit "Date" = Some (Some cell) ->
          import_date (strip cell) = Some d ->
          (row !! lit "Amount" = None -> read_row row = RowOk d 0)
          /\ (forall acell,
                row !! lit "Amount" = Some (Some acell) -> is_blank acell = true ->
                read_row row = RowSkip)
          /\ (row !! lit "Amount" = Some None -> read_row row = RowCrash)).
Proof.
  intros row. unfold read_row, row_get_default, is_blank.
  split; [| split; [| split]].
  - by intros ->.
  - intros cell -> Hb. cbn [default from_option id]. cbv zeta.
    by destruct (strip cell).
  - by intros ->.
  - intros cell d -> Hd. cbn [default from_option id]. cbv zeta. rewrite Hd.
    destruct (strip cell) as [|c r] eqn:E; [by vm_compute in Hd |].
    split; [| split].
    + by intros ->.
    + intros acell -> Hb. cbn [default from_option id]. cbv zeta.
      by destruct (strip acell).
    + by intros ->.
Qed.

Lemma missing_cells_skip_or_zero_witness :
  read_row (<[ lit "Date" := Some (lit "03/10/2024") ]> ∅)
  = RowOk (mkdate 2024 3 10) 0
  /\ read_row (<[ lit "Date" := Some (lit "03/10/2024") ]>
                (<[ lit "Amount" := None ]> ∅))
     = RowCrash.
Proof.
  split.
  - apply (proj1 (proj2 (proj2 (proj2 (missing_cells_skip_or_zero
             (<[ lit "Date" := Some (lit "03/10/2024") ]> ∅))))
             (lit "03/10/2024") (mkdate 2024 3 10)
             ltac:(by vm_compute) ltac:(by vm_compute)));
      by vm_compute.
  - apply (proj2 (proj2 (proj2 (proj2 (proj2 (missing_cells_skip_or_zero
             (<[ lit "Date" := Some (lit "03/10/2024") ]>
                (<[ lit "Amount" := None ]> ∅)))))
             (lit "03/10/2024") (mkdate 2024 3 10)
             ltac:(by vm_compute) ltac:(by vm_compute))));
      by vm_compute.
Defined.

(** ** The ledger index *)

Lemma index_add_ledger_date idx tx :
  index_add idx tx =
  match ledger_date tx with
  | None => idx
  | Some d => <[ tx_amount tx := default [] (idx !! tx_amount tx) ++ [d] ]> idx
  end.
Proof.
  unfold index_add, ledger_date.
  by destruct (if truthy (tx_var_date tx) then tx_var_date tx else tx_date tx).
Qed.

Lemma build_index_snoc txs tx :
  build_index (txs ++ [tx]) = index_add (build_index txs) tx.
Proof. unfold build_index. by rewrite fold_left_app. Qed.

Lemma dates_for_snoc a txs tx :
  dates_for a (txs ++ [tx]) =
  dates_for a txs
  ++ (if tx_amount tx =? a then
        match ledger_date tx with Some d => [d] | None => [] end
      else []).
Proof.
  unfold dates_for. rewrite omap_app. f_equal. cbn.
  destruct (tx_amount tx =? a); [| done]. by destruct (ledger_date tx).
Qed.

Lemma build_index_lookup txs a :
  build_index txs !! a =
  match dates_for a txs with [] => None | l => Some l end.
Proof.
  induction txs as [|tx txs IH] using rev_ind; [done |].
  rewrite build_index_snoc, index_add_ledger_date, dates_for_snoc.
  destruct (ledger_date tx) as [d|].
  - destruct (Z.eqb_spec (tx_amount tx) a) as [-> | Hne].
    + rewrite lookup_insert_eq, IH. by destruct (dates_for a txs).
    + rewrite lookup_insert_ne, IH, app_nil_r by done. done.
  - rewrite IH. destruct (tx_amount tx =? a); by rewrite app_nil_r.
Qed.

Lemma in_dates_for e a txs :
  In e (dates_for a txs) <->
  exists tx, In tx txs /\ tx_amount tx = a /\ ledger_date tx = Some e.
Proof.
  unfold dates_for. rewrite <- list_elem_of_In, list_elem_of_omap. split.
  - intros (tx & Htx & H). exists tx. rewrite <- list_elem_of_In.
    destruct (Z.eqb_spec (tx_amount tx) a); [done | done].
  - intros (tx & Htx & <- & H). exists tx. rewrite list_elem_of_In.
    by rewrite Z.eqb_refl.
Qed.

(** X4. The index holds, under each amount, the dates of the ledger
    transactions of exactly that amount whose date can be read, in ledger
    order, and has no entry for an amount without such a transaction. *)
Theorem index_lists_dates_by_amount :
  forall txs a,
    build_index txs !! a =
    match dates_for a txs with [] => None | l => Some l end.
Proof. exact build_index_lookup. Qed.

Lemma duplicate_in_ledger tol txs d a :
  is_duplicate tol (build_index txs) d a = true <->
  exists tx e,
    In tx txs /\ tx_amount tx = a /\ ledger_date tx = Some e
    /\ Z.abs (days_between d e) <= tol.
Proof.
  rewrite is_duplicate_spec, build_index_lookup. split.
  - intros (dates & e & Hl & He & Hle).
    assert (Hd : dates = dates_for a txs)
      by (destruct (dates_for a txs); congruence).
    subst dates. apply in_dates_for in He as (tx & ? & ? & ?).
    exists tx, e. unfold days_between. repeat split; try done; lia.
  - intros (tx & e & Htx & Ha & He & Hle).
    assert (Hin : In e (dates_for a txs)) by (apply in_dates_for; eauto).
    exists (dates_for a txs), e. unfold days_between in Hle.
    destruct (dates_for a txs); [done |]. repeat split; try done; lia.
Qed.

(** X5. Against the index built from a ledger, a row is a duplicate exactly
    when some ledger transaction has the same minor-unit amount and a
    readable date at most [tol] days away. *)
Theorem duplicate_iff_ledger_transaction :
  forall tol txs d a,
    is_duplicate tol (build_index txs) d a = true <->
    exists tx e,
      In tx txs /\ tx_amount tx = a /\ ledger_date tx = Some e
      /\ Z.abs (days_between d e) <= tol.
Proof. intros tol txs d a. apply duplicate_in_ledger. Qed.

Lemma duplicate_iff_ledger_transaction_witness :
  is_duplicate 5 (build_index ledger_example) (mkdate 2024 3 10) (-50000) = true.
Proof.
  apply (proj2 (duplicate_iff_ledger_transaction 5 ledger_example
                  (mkdate 2024 3 10) (-50000))).
  exists (mktx (-50000) (Some (DateObj (mkdate 2024 3 13))) None), (mkdate 2024 3 13).
  split; [by left |]. split; [done |]. split; [by vm_compute | by vm_compute].
Defined.

Lemma first_pass_earliest rows cands m c :
  first_pass rows [] None = Some (cands, Some m) ->
  In c cands -> toordinal m <= toordinal c.1.1.
Proof.
  intros Hfp Hc.
  match type of Hfp with
  | first_pass rows ?x ?y = _ =>
      pose proof (first_pass_spec rows x y ltac:(done) ltac:(done)) as H
  end.
  rewrite Hfp in H. destruct H as (_ & _ & _ & H).
  destruct (H m eq_refl) as (_ & Hmin). by apply Hmin.
Qed.

Lemma listing_since_lists ledger : lists_ledger_since (listing_since ledger) ledger.
Proof.
  intros since. eexists. split; [reflexivity |]. cbn [default from_option id]. split.
  - intros tx Htx. by apply filter_In in Htx as [? _].
  - intros tx e Htx He Hle. apply filter_In. split; [done |].
    rewrite He. by apply Z.leb_le.
Qed.

(** X2. The listing of existing transactions starts early enough. When the
    run asks for the transactions from the day it computes (the earliest
    kept date minus the tolerance) and the ledger answers with its
    transactions dated on or after the requested day, the duplicate check of
    every kept row against the fetched index gives the same answer as
    against the whole ledger. *)
Theorem fetch_window_covers_candidates :
  forall get tol rows cands m ledger idx evs c,
    first_pass rows [] None = Some (cands, Some m) ->
    load_existing get tol (Some m) = Some (idx, evs) ->
    lists_ledger_since get ledger ->
    In c cands ->
    is_duplicate tol idx c.1.1 c.1.2
    = is_duplicate tol (build_index ledger) c.1.1 c.1.2.
Proof.
  intros get tol rows cands m ledger idx evs c Hfp Hload Hlist Hc.
  pose proof (first_pass_earliest rows cands m c Hfp Hc) as Hmin.
  unfold load_existing in Hload.
  destruct (_ && _); [| done].
  destruct (Hlist (toordinal m - tol)) as (txs & Hget & Hsub & Hcov).
  rewrite Hget in Hload. injection Hload as <- _.
  apply Bool.eq_iff_eq_true. rewrite !duplicate_in_ledger. split.
  - intros (tx & e & Htx & Ha & He & Hle). exists tx, e.
    split; [by apply Hsub | done].
  - intros (tx & e & Htx & Ha & He & Hle). exists tx, e.
    split; [| done]. apply (Hcov tx e Htx He).
    unfold days_between in Hle. lia.
Qed.

Lemma fetch_window_covers_candidates_witness :
  exists idx evs,
    load_existing (listing_since old_and_new_ledger) 5 (Some (mkdate 2024 3 10))
    = Some (idx, evs)
    /\ is_duplicate 5 idx (mkdate 2024 3 10) (-50000)
       = is_duplicate 5 (build_index old_and_new_ledger) (mkdate 2024 3 10) (-50000).
Proof.
  destruct (load_existing (listing_since old_and_new_ledger) 5
              (Some (mkdate 2024 3 10))) as [[idx evs]|] eqn:E;
    [| by vm_compute in E].
  exists idx, evs. split; [done |].
  apply (fetch_window_covers_candidates (listing_since old_and_new_ledger) 5
           [row_of "2024-03-10" "-50.00"] [candidate_example] (mkdate 2024 3 10)
           old_and_new_ledger idx evs candidate_example).
  - vm_cast_no_check
      (eq_refl (Some ([candidate_example], Some (mkdate 2024 3 10)))).
  - exact E.
  - apply listing_since_lists.
  - by left.
Defined.

Lemma strptime_iso_canonical d :
  date_ok d = true -> strptime (isoformat d) ISO_FORMAT = Some d.
Proof.
  destruct d as [y m dd]. unfold date_ok. cbn [year month day]. intros Hv.
  change (strptime (isoformat (mkdate y m dd)) ISO_FORMAT)
    with (try_items F_iso (S_iso y m dd)).
  by apply try_iso_iso.
Qed.

Lemma isoformat_length d : List.length (isoformat d) = 10%nat.
Proof. reflexivity. Qed.

(** X6. A ledger transaction whose date attribute is a [date] object, or a
    text that starts with the ISO form of a date (a timestamp, say), is
    indexed under that date. *)
Theorem ledger_date_reads_iso_prefix :
  forall tx d rest,
    date_ok d = true ->
    tx_var_date tx = Some (DateObj d)
    \/ tx_var_date tx = Some (DateText (isoformat d ++ rest))
    \/ (truthy (tx_var_date tx) = false
        /\ (tx_date tx = Some (DateObj d)
            \/ tx_date tx = Some (DateText (isoformat d ++ rest)))) ->
    ledger_date tx = Some d.
Proof.
  intros tx d rest Hd H.
  assert (Hcut : slice_to 10 (isoformat d ++ rest) = isoformat d).
  { unfold slice_to. rewrite <- (isoformat_length d). apply take_app_length. }
  assert (Hobj : slice_to 10 (isoformat d) = isoformat d).
  { unfold slice_to. rewrite <- (isoformat_length d). apply firstn_all. }
  unfold ledger_date.
  destruct H as [-> | [-> | [-> [-> | ->]]]]; cbn [truthy field_text];
    rewrite ?Hcut, ?Hobj; by apply strptime_iso_canonical.
Qed.

Lemma ledger_date_reads_iso_prefix_witness :
  ledger_date (mktx (-50000) (Some (DateText (isoformat (mkdate 2024 3 13) ++ lit "T08:15:00"))) None)
  = Some (mkdate 2024 3 13).
Proof.
  apply (ledger_date_reads_iso_prefix _ _ (lit "T08:15:00")).
  - reflexivity.
  - right. left. reflexivity.
Defined.

(** X7. Widening the tolerance never turns a duplicate into a new row, and
    with a negative tolerance no row is a duplicate. *)
Theorem tolerance_is_monotone :
  forall tol tol' (idx : gmap Z (list date)) d a,
    (tol <= tol' -> is_duplicate tol idx d a = true ->
     is_duplicate tol' idx d a = true)
    /\ (tol < 0 -> is_duplicate tol idx d a = false).
Proof.
  intros tol tol' idx d a. split.
  - intros Hle. rewrite !is_duplicate_spec.
    intros (dates & e & ? & ? & ?). exists dates, e. repeat split; try done; lia.
  - intros Hneg. destruct (is_duplicate tol idx d a) eqn:E; [| done].
    apply is_duplicate_spec in E as (dates & e & _ & _ & ?). lia.
Qed.

Lemma tolerance_is_monotone_witness :
  is_duplicate 7 (build_index ledger_example) (mkdate 2024 3 10) (-50000) = true.
Proof.
  apply (proj1 (tolerance_is_monotone 5 7 (build_index ledger_example)
                  (mkdate 2024 3 10) (-50000))).
  - lia.
  - by vm_compute.
Defined.

(** ** The classification loop and the run *)

Lemma filter_partition_length {A} (f : A -> bool) l :
  (List.length (List.filter (fun x => negb (f x)) l)
   + List.length (List.filter f l) = List.length l)%nat.
Proof. induction l as [|x l IH]; simpl; [done |]. destruct (f x); simpl; lia. Qed.

Lemma classify_spec tol cmap idx cands :
  let st := classify tol cmap idx cands in
  transactions_to_import st =
    map (make_tx cmap) (List.filter (fun c => negb (cand_dup tol idx c)) cands)
  /\ skipped_duplicates st = List.length (List.filter (cand_dup tol idx) cands).
Proof.
  destruct (classify_fold tol cmap cands (mkloop idx [] 0%nat [])) as (_ & Hb & Hs).
  simpl in Hb, Hs. by split.
Qed.

Lemma make_tx_fields cmap c :
  nt_date (make_tx cmap c) = c.1.1 /\ nt_amount (make_tx cmap c) = c.1.2.
Proof. by destruct c as [[d a] row]. Qed.

Lemma every_candidate_fields tol cmap idx cands t :
  In t (transactions_to_import (classify tol cmap idx cands)) ->
  exists c, In c cands /\ nt_date t = c.1.1 /\ nt_amount t = c.1.2.
Proof.
  destruct (classify_spec tol cmap idx cands) as (Hb & _). rewrite Hb.
  intros Ht. apply in_map_iff in Ht as (c & <- & Hc).
  apply filter_In in Hc as (Hc & _). exists c.
  destruct (make_tx_fields cmap c) as (? & ?). by repeat split.
Qed.

(** X8. Every candidate is either put into the batch or counted as a skipped
    duplicate: the two numbers add up to the number of candidates, and each
    transaction of the batch carries the date and the amount of a candidate
    that is no duplicate. *)
Theorem every_candidate_imported_or_skipped :
  forall tol cmap (idx : gmap Z (list date)) (cands : list candidate),
    let st := classify tol cmap idx cands in
    (List.length (transactions_to_import st) + skipped_duplicates st
     = List.length cands)%nat
    /\ (forall t, In t (transactions_to_import st) ->
          exists c, In c cands /\ t = make_tx cmap c
                    /\ nt_date t = c.1.1 /\ nt_amount t = c.1.2
                    /\ is_duplicate tol idx c.1.1 c.1.2 = false).
Proof.
  intros tol cmap idx cands st.
  destruct (classify_spec tol cmap idx cands) as (Hb & Hs). fold st in Hb, Hs.
  rewrite Hb, Hs, length_map. split; [apply filter_partition_length |].
  intros t Ht. apply in_map_iff in Ht as (c & <- & Hc).
  apply filter_In in Hc as (Hc & Hn). exists c.
  destruct (make_tx_fields cmap c) as (? & ?).
  repeat split; try done. unfold cand_dup in Hn. by destruct (is_duplicate _ _ _ _).
Qed.

Lemma classify_warnings tol cmap cands : forall st,
  forallb is_category_warning (warnings st) = true ->
  forallb is_category_warning
    (warnings (fold_left (classify_step tol cmap) cands st)) = true.
Proof.
  induction cands as [|c cands IH]; intros st Hst; simpl; [done |].
  apply IH. unfold classify_step. destruct c as [[d a] row].
  destruct (is_duplicate _ _ _ _); simpl; [done |].
  rewrite forallb_app, Hst. simpl.
  destruct (category_name_of row); [done |].
  by destruct (category_id_of cmap row) as [[|? ?]|].
Qed.

Lemma no_submit_among_warnings l :
  forallb is_category_warning l = true -> List.filter is_submit l = [].
Proof.
  induction l as [|e l IH]; simpl; [done |].
  destruct e; simpl; try done.
Qed.

Lemma submit_events create st :
  List.filter is_submit (submit create st).1 =
  match transactions_to_import st with
  | [] => []
  | b => [EvSubmit b]
  end.
Proof.
  unfold submit. cbv zeta.
  set (sk := match skipped_duplicates st with
             | O => []
             | S _ => [EvSkipped (skipped_duplicates st)]
             end).
  assert (Hs : List.filter is_submit sk = [])
    by (unfold sk; by destruct (skipped_duplicates st)).
  destruct (transactions_to_import st) as [|t b];
    [cbn [fst]; by rewrite List.filter_app, Hs |].
  destruct (create (t :: b)) as [[created [|k]]|msg]; cbn [fst];
    by rewrite List.filter_app, Hs.
Qed.

Lemma load_existing_events get tol m idx evs :
  load_existing get tol m = Some (idx, evs) -> List.filter is_submit evs = [].
Proof.
  unfold load_existing. destruct m as [m|]; [| by intros [= <- <-]].
  destruct (_ && _); [| done].
  destruct (get _) as [txs|msg]; by intros [= <- <-].
Qed.

(** X9. A run creates transactions at most once, and never with an empty
    batch. Each transaction it submits has the date and the amount read from
    a row of the file. *)
Theorem run_submits_at_most_once :
  forall get create tol categories rows,
    let events := (run get create tol categories rows).1 in
    (List.length (List.filter is_submit events) <= 1)%nat
    /\ (forall batch, In (EvSubmit batch) events ->
          batch <> []
          /\ forall t, In t batch ->
               exists row, In row rows
                           /\ read_row row = RowOk (nt_date t) (nt_amount t)).
Proof.
  intros get create tol categories rows events. subst events. unfold run.
  destruct categories as [cmap|msg];
    [| split; [simpl; lia | intros b [H|[]]; discriminate H]].
  destruct (first_pass rows [] None) as [[cands m]|] eqn:Hfp;
    [| split; [simpl; lia | intros b [H|[]]; discriminate H]].
  destruct (load_existing get tol m) as [[idx evs]|] eqn:El;
    [| split; [simpl; lia | intros b [H|[]]; discriminate H]].
  apply load_existing_events in El.
  set (st := classify tol cmap idx cands).
  assert (Hw : List.filter is_submit (warnings st) = []).
  { apply no_submit_among_warnings. by apply classify_warnings. }
  pose proof (submit_events create st) as Hsub.
  destruct (submit create st) as [events status]. simpl in Hsub. simpl.
  assert (Hf : List.filter is_submit (evs ++ warnings st ++ events) =
               match transactions_to_import st with [] => [] | b => [EvSubmit b] end).
  { by rewrite !List.filter_app, El, Hw, Hsub. }
  split; [rewrite Hf; destruct (transactions_to_import st); simpl; lia |].
  intros batch [H | Hin]; [discriminate H |].
  assert (Hin' : In (EvSubmit batch) (List.filter is_submit (evs ++ warnings st ++ events)))
    by (apply filter_In; by split).
  rewrite Hf in Hin'.
  destruct (transactions_to_import st) as [|t0 b0] eqn:Eb; [done |].
  destruct Hin' as [[= <-] | []]. split; [done |].
  intros t Ht. rewrite <- Eb in Ht.
  destruct (every_candidate_fields tol cmap idx cands t Ht) as (c & Hc & Hd & Ha).
  destruct c as [[d a] row]. simpl in Hd, Ha. subst d a.
  exists row. by apply (first_pass_keeps_rows rows cands m Hfp).
Qed.

Lemma first_pass_all_skipped rows : forall acc m0,
  (forall row, In row rows -> read_row row = RowSkip) ->
  first_pass rows acc m0 = Some (acc, m0).
Proof.
  induction rows as [|row rows IH]; intros acc m0 H; [done |].
  cbn [first_pass]. rewrite (H row) by by left.
  apply IH. intros r Hr. apply H. by right.
Qed.

(** X10. When the first pass skips every row of the file (each has a blank
    or unreadable date, or an unreadable amount, and no cell it reads is
    [None]; an empty file, say), the run reports that there is nothing to
    import and ends normally, whatever the remote ledger would have
    answered: nothing is listed and nothing is created. *)
Theorem nothing_readable_nothing_sent :
  forall get create tol cmap rows,
    (forall row, In row rows -> read_row row = RowSkip) ->
    run get create tol (ApiOk cmap) rows =
    ([EvCategoriesFetched; EvNoTransactions], Returned).
Proof.
  intros get create tol cmap rows H. unfold run.
  by rewrite (first_pass_all_skipped rows [] None H).
Qed.

Lemma nothing_readable_nothing_sent_witness :
  run failing_fetch accepting_create 5 (ApiOk ∅)
    [row_of "" "12.00"; row_of "yesterday" "12.00"; row_of "2024-03-10" "n/a"]
  = ([EvCategoriesFetched; EvNoTransactions], Returned).
Proof.
  apply nothing_readable_nothing_sent.
  intros row [<- | [<- | [<- | []]]]; by vm_compute.
Defined.

Lemma first_pass_crash rows : forall acc m0 row,
  In row rows -> read_row row = RowCrash -> first_pass rows acc m0 = None.
Proof.
  induction rows as [|r rows IH]; intros acc m0 row Hin Hc; [done |].
  cbn [first_pass]. destruct Hin as [-> | Hin]; [by rewrite Hc |].
  destruct (read_row r); eauto.
Qed.

Lemma read_row_overflow row date_cell amount_cell d :
  row_get_default row (lit "Date") [] = Some date_cell ->
  import_date (strip date_cell) = Some d ->
  row_get_default row (lit "Amount") (lit "0") = Some amount_cell ->
  import_amount (replace (lit ",") [] (strip amount_cell)) = IntOverflowError ->
  read_row row = RowCrash.
Proof.
  intros Hdc Hd Hac Ha. unfold read_row. rewrite Hdc. cbv zeta.
  destruct (strip date_cell) as [|c r]; [by vm_compute in Hd |].
  by rewrite Hd, Hac, Ha.
Qed.

(** X11. A row with a readable date whose amount, times 1000, is infinite
    stops the run with the [OverflowError] of [int], which the loop does not
    catch: the run ends right after the categories were fetched, and nothing
    is listed or created, whatever the other rows hold. *)
Theorem infinite_amount_aborts_run :
  forall get create tol cmap rows row date_cell amount_cell d,
    In row rows ->
    row_get_default row (lit "Date") [] = Some date_cell ->
    import_date (strip date_cell) = Some d ->
    row_get_default row (lit "Amount") (lit "0") = Some amount_cell ->
    import_amount (replace (lit ",") [] (strip amount_cell)) = IntOverflowError ->
    run get create tol (ApiOk cmap) rows = ([EvCategoriesFetched], Crashed).
Proof.
  intros get create tol cmap rows row date_cell amount_cell d Hin Hdc Hd Hac Ha.
  unfold run.
  by rewrite (first_pass_crash rows [] None row Hin
                (read_row_overflow row date_cell amount_cell d Hdc Hd Hac Ha)).
Qed.

Lemma infinite_amount_aborts_run_witness :
  run failing_fetch accepting_create 5 (ApiOk ∅)
    [row_of "2024-03-10" "-50.00"; row_of "03/11/2024" "1e308"]
  = ([EvCategoriesFetched], Crashed).
Proof.
  apply (infinite_amount_aborts_run _ _ _ _ _ (row_of "03/11/2024" "1e308")
           (lit "03/11/2024") (lit "1e308") (mkdate 2024 3 11)).
  - right. by left.
  - by vm_compute.
  - by vm_compute.
  - by vm_compute.
  - by vm_compute.
Defined.

(** ** The category map *)

Lemma build_category_map_flat groups :
  build_category_map groups = fold_left add_category (all_categories groups) ∅.
Proof.
  unfold build_category_map, all_categories. generalize (∅ : gmap str str).
  induction groups as [|g groups IH]; intros m; [done |].
  cbn [fold_left map List.concat]. rewrite fold_left_app. apply IH.
Qed.

Lemma category_map_lookup_flat cats n :
  fold_left add_category cats ∅ !! n = last (ids_named n cats).
Proof.
  induction cats as [|c cats IH] using rev_ind; [done |].
  rewrite fold_left_app. cbn [fold_left]. unfold add_category at 1, ids_named.
  rewrite List.filter_app, map_app. cbn [List.filter].
  destruct (category_kept c); cbn [andb].
  - unfold str_eqb. destruct (bool_decide_reflect (lower (cat_name c) = n)) as [-> | Hne].
    + rewrite lookup_insert_eq. cbn [map]. by rewrite last_snoc.
    + rewrite lookup_insert_ne by done. cbn [map]. rewrite app_nil_r. exact IH.
  - cbn [map]. rewrite app_nil_r. exact IH.
Qed.

(** X12. The map from category names to identifiers holds the categories that
    are neither deleted nor hidden, whatever their group, under their
    lowercased names; of several such categories whose names differ at most
    in case, the last of the listing gives the identifier. A name of no such
    category has no entry. *)
Theorem category_map_last_wins :
  forall groups n,
    build_category_map groups !! n = last (ids_named n (all_categories groups)).
Proof.
  intros groups n. rewrite build_category_map_flat. apply category_map_lookup_flat.
Qed.

Lemma print_group_categories_kept cats name :
  In (LineCategory name) (print_group_categories cats).1 ->
  exists c, In c cats /\ cat_name c = name /\ category_kept c = true.
Proof.
  induction cats as [|c cats IH]; [done |]. cbn [print_group_categories].
  assert (Hrest : In (LineCategory name) (print_group_categories cats).1 ->
                  exists c0, In c0 (c :: cats) /\ cat_name c0 = name
                             /\ category_kept c0 = true).
  { intros H. destruct (IH H) as (c0 & ? & ? & ?). exists c0.
    split; [by right | done]. }
  unfold category_kept.
  destruct (cat_hidden c) as [[|]|] eqn:Eh; [done | | done].
  destruct (cat_deleted c) as [[|]|] eqn:Ed; [done | | done].
  destruct (print_group_categories cats) as [lines status]. cbn [fst].
  intros [[= <-] | H]; [| by apply Hrest].
  exists c. unfold category_kept. rewrite Eh, Ed. split; [by left | done].
Qed.

Lemma print_categories_kept groups name :
  In (LineCategory name) (print_categories groups).1 ->
  exists c, In c (all_categories groups) /\ cat_name c = name
            /\ category_kept c = true.
Proof.
  induction groups as [|g groups IH]; [done |]. cbn [print_categories].
  assert (Hrest : In (LineCategory name) (print_categories groups).1 ->
                  exists c, In c (all_categories (g :: groups))
                            /\ cat_name c = name /\ category_kept c = true).
  { intros H. destruct (IH H) as (c & ? & ? & ?). exists c.
    split; [| done]. unfold all_categories. cbn [map List.concat].
    apply in_or_app. by right. }
  assert (Hhere : In (LineCategory name) (print_group_categories (group_categories g)).1 ->
                  exists c, In c (all_categories (g :: groups))
                            /\ cat_name c = name /\ category_kept c = true).
  { intros H. destruct (print_group_categories_kept _ _ H) as (c & ? & ? & ?).
    exists c. split; [| done]. unfold all_categories. cbn [map List.concat].
    apply in_or_app. by left. }
  destruct (group_hidden g) as [[|]|]; [done | | done].
  destruct (group_deleted g) as [[|]|]; [done | | done].
  destruct (print_group_categories (group_categories g)) as [lines status].
  cbn [fst] in Hhere.
  destruct status.
  - destruct (print_categories groups) as [lines' status']. cbn [fst] in *.
    intros [H | H]; [discriminate H |].
    apply in_app_or in H as [H | [H | H]]; [by apply Hhere | discriminate H | by apply Hrest].
  - cbn [fst]. intros [H | H]; [discriminate H | by apply Hhere].
  - cbn [fst]. intros [H | H]; [discriminate H | by apply Hhere].
Qed.

Lemma last_is_Some {A} (l : list A) : l <> [] -> is_Some (last l).
Proof.
  destruct l as [|x l] using rev_ind; [done |]. rewrite last_snoc. by eexists.
Qed.

(** X13. Every category name that [get_ynab_ids] prints has an entry in the
    map the import builds from the same listing. A row of the file whose
    Category cell, trimmed, is such a name up to case is therefore given a
    category identifier, provided the name is not empty. *)
Theorem printed_category_resolves :
  forall groups name,
    In (LineCategory name) (print_categories groups).1 ->
    is_Some (build_category_map groups !! lower name)
    /\ (forall (row : csv_row) cell,
          row !! lit "Category" = Some (Some cell) ->
          lower (strip cell) = lower name ->
          name <> [] ->
          is_Some (category_id_of (build_category_map groups) row)).
Proof.
  intros groups name Hin.
  assert (Hsome : is_Some (build_category_map groups !! lower name)).
  { rewrite build_category_map_flat, category_map_lookup_flat.
    apply last_is_Some. unfold ids_named.
    destruct (print_categories_kept groups name Hin) as (c & Hc & Hn & Hk).
    intros Hnil. apply map_eq_nil in Hnil.
    assert (Hf : In c (List.filter
              (fun c0 => category_kept c0 && str_eqb (lower (cat_name c0)) (lower name))
              (all_categories groups))).
    { apply filter_In. split; [done |]. rewrite Hk, Hn. unfold str_eqb.
      by rewrite bool_decide_eq_true_2. }
    by rewrite Hnil in Hf. }
  split; [done |].
  intros row cell Hrow Hcell Hne.
  unfold category_id_of, category_name_of, row_text, row_get_or_empty.
  rewrite Hrow.
  destruct (strip cell) as [|c r] eqn:Es.
  - destruct name; [done | discriminate Hcell].
  - change (is_Some (build_category_map groups !! lower (c :: r))).
    by rewrite Hcell.
Qed.

Lemma printed_category_resolves_witness :
  is_Some (build_category_map groups_example !! lower (lit "Groceries")).
Proof.
  apply (proj1 (printed_category_resolves groups_example (lit "Groceries")
                  ltac:(vm_compute; right; left; reflexivity))).
Defined.

(** ** From the converter to the import *)

Lemma first_format_valid s fmts d :
  first_format s fmts = Some d -> date_ok d = true.
Proof.
  induction fmts as [|fmt fmts IH]; [done |]. cbn [first_format].
  destruct (strptime s fmt) as [d'|] eqn:E; [| exact IH].
  intros [= <-]. by apply (strptime_valid s fmt).
Qed.

Lemma import_date_iso d : date_ok d = true -> import_date (isoformat d) = Some d.
Proof. intros Hd. unfold import_date. by rewrite strptime_iso_canonical. Qed.

(** X14. A date the converter reads through one of its seven formats is
    written as the ISO form of that date, and the import reads the same date
    back from it (where the C library writes a year below 1000 without
    leading zeros, for the years from 1000 on). *)
Theorem converted_date_read_back :
  forall pad s d,
    first_format (strip s) date_formats = Some d ->
    pad = true \/ 1000 <= year d ->
    _parse_date pad s = Some (isoformat d)
    /\ import_date (isoformat d) = Some d.
Proof.
  intros pad s d Hf Hy.
  pose proof (first_format_valid _ _ _ Hf) as Hd.
  split; [| by apply import_date_iso].
  unfold _parse_date, is_blank.
  destruct (strip s) as [|c r] eqn:E; [by vm_compute in Hf |].
  by rewrite Hf, strftime_ymd_iso.
Qed.

Lemma converted_date_read_back_witness :
  _parse_date false (lit " Mar 5, 2024 ") = Some (isoformat (mkdate 2024 3 5))
  /\ import_date (isoformat (mkdate 2024 3 5)) = Some (mkdate 2024 3 5).
Proof.
  apply converted_date_read_back.
  - by vm_compute.
  - right. simpl. lia.
Defined.

(** ** More on the deduplication *)

Lemma dedupe_covers rows r :
  In r rows ->
  In r (dedupe rows)
  \/ exists r', In r' (dedupe rows) /\ key_eqb (row_key r) (row_key r') = true.
Proof.
  revert r. induction rows as [|x rows IH] using rev_ind; intros r; [done |].
  rewrite dedupe_snoc. intros Hin. apply in_app_or in Hin as [Hin | [<- | []]].
  - destruct (IH r Hin) as [H | (r' & H & Hk)].
    + left. apply in_or_app. by left.
    + right. exists r'. split; [apply in_or_app; by left | done].
  - destruct (existsb _ rows) eqn:E.
    + right. apply existsb_exists in E as (r0 & Hr0 & Hk0).
      destruct (IH r0 Hr0) as [H | (r' & H & Hk)].
      * exists r0. split; [apply in_or_app; by left | done].
      * exists r'. split; [apply in_or_app; by left |].
        by apply (key_eqb_trans _ (row_key r0)).
    + left. apply in_or_app. right. by left.
Qed.

Lemma dedupe_in rows r : In r (dedupe rows) -> In r rows.
Proof.
  intros H. apply list_elem_of_In.
  eapply elem_of_sublist; [| apply dedupe_sublist]. by apply list_elem_of_In.
Qed.

Lemma dedupe_distinct rows :
  forall pre r post,
    dedupe rows = pre ++ r :: post ->
    forall r', In r' pre -> key_eqb (row_key r) (row_key r') = false.
Proof.
  induction rows as [|x rows IH] using rev_ind; intros pre r post.
  - by destruct pre.
  - rewrite dedupe_snoc. destruct (existsb _ rows) eqn:E.
    + rewrite app_nil_r. apply IH.
    + destruct post as [|p post] using rev_ind.
      * intros Heq. apply app_inj_tail in Heq as [Hpre <-].
        intros r' Hr'. rewrite <- Hpre in Hr'. apply dedupe_in in Hr'.
        destruct (key_eqb (row_key x) (row_key r')) eqn:Ek; [| done].
        assert (existsb (fun r'0 => key_eqb (row_key x) (row_key r'0)) rows = true)
          by (apply existsb_exists; eauto).
        congruence.
      * clear IHpost. intros Heq.
        change (pre ++ r :: post ++ [p]) with (pre ++ (r :: post) ++ [p]) in Heq.
        rewrite app_assoc in Heq. apply app_inj_tail in Heq as [Heq _].
        by apply (IH pre r post).
Qed.

Lemma dedupe_fixed rows :
  (forall pre r post, rows = pre ++ r :: post ->
     forall r', In r' pre -> key_eqb (row_key r) (row_key r') = false) ->
  dedupe rows = rows.
Proof.
  induction rows as [|x rows IH] using rev_ind; intros H; [done |].
  rewrite dedupe_snoc, IH.
  - destruct (existsb _ rows) eqn:E; [| done].
    apply existsb_exists in E as (r' & Hr' & Hk).
    by rewrite (H rows x [] eq_refl r' Hr') in Hk.
  - intros pre r post -> r' Hr'.
    apply (H pre r (post ++ [x])); [by rewrite <- app_assoc | done].
Qed.

Lemma dedupe_keeps_nan rows :
  List.filter (fun r => amount_is_nan (Amount r)) (dedupe rows)
  = List.filter (fun r => amount_is_nan (Amount r)) rows.
Proof.
  induction rows as [|r rows IH] using rev_ind; [done |].
  rewrite dedupe_snoc, !List.filter_app, IH. f_equal. cbn [List.filter].
  destruct (amount_is_nan (Amount r)) eqn:En.
  - replace (existsb _ rows) with false; [cbn; by rewrite En |].
    symmetry. apply not_true_iff_false. intros H.
    apply existsb_exists in H as (r' & _ & H). by rewrite key_eqb_nan in H.
  - destruct (existsb _ rows); [done |]. cbn. by rewrite En.
Qed.

(** X15. After the deduplication no record has a key that compares equal to
    the key of an earlier record, so the records whose amount is not NaN
    have pairwise different keys; the records with a NaN amount, which
    equals nothing, are all kept, identical ones too. Every record of the
    input is kept or has a kept record with an equal key, and deduplicating
    again changes nothing. *)
Theorem dedupe_leaves_distinct_keys :
  forall rows,
    (forall pre r post, dedupe rows = pre ++ r :: post ->
       forall r', In r' pre ->
         key_eqb (row_key r) (row_key r') = false
         /\ (amount_is_nan (Amount r) = false -> row_key r <> row_key r'))
    /\ List.filter (fun r => amount_is_nan (Amount r)) (dedupe rows)
       = List.filter (fun r => amount_is_nan (Amount r)) rows
    /\ (forall r, In r rows ->
          In r (dedupe rows)
          \/ exists r', In r' (dedupe rows)
                        /\ key_eqb (row_key r) (row_key r') = true)
    /\ dedupe (dedupe rows) = dedupe rows.
Proof.
  intros rows. split; [| split; [apply dedupe_keeps_nan | split]].
  - intros pre r post Heq r' Hr'.
    pose proof (dedupe_distinct rows pre r post Heq r' Hr') as Hk.
    split; [done |]. intros Hn Hkey. rewrite <- Hkey in Hk.
    by rewrite key_eqb_refl in Hk.
  - apply dedupe_covers.
  - apply dedupe_fixed, dedupe_distinct.
Qed.

Lemma dedupe_leaves_distinct_keys_witness :
  In (row_example "kid toy") (dedupe [row_example "kid toy"; row_example "kid toy"])
  \/ exists r',
       In r' (dedupe [row_example "kid toy"; row_example "kid toy"])
       /\ key_eqb (row_key (row_example "kid toy")) (row_key r') = true.
Proof.
  apply (proj1 (proj2 (proj2 (dedupe_leaves_distinct_keys
                                [row_example "kid toy"; row_example "kid toy"])))).
  by left.
Defined.

(** ** White space around a cell *)

Lemma is_blank_affixes w1 s w2 :
  all_space w1 -> all_space w2 -> is_blank (w1 ++ s ++ w2) = is_blank s.
Proof. intros H1 H2. unfold is_blank. by rewrite strip_affixes. Qed.

(** X16. White space before and after a cell changes neither the date nor the
    amount read from it, and a cell of white space alone gives none. *)
Theorem cells_read_without_surrounding_space :
  forall pad w1 s w2,
    all_space w1 -> all_space w2 ->
    _parse_date pad (w1 ++ s ++ w2) = _parse_date pad s
    /\ _parse_amount (w1 ++ s ++ w2) = _parse_amount s
    /\ _parse_date pad w1 = None
    /\ _parse_amount w1 = None.
Proof.
  intros pad w1 s w2 H1 H2.
  assert (Hb : is_blank w1 = true).
  { unfold is_blank, strip. by rewrite lstrip_all_space. }
  unfold _parse_date, _parse_amount.
  rewrite is_blank_affixes, !strip_affixes, Hb by done. done.
Qed.

Lemma cells_read_without_surrounding_space_witness :
  _parse_date false (lit "  03/05/2024 ") = _parse_date false (lit "03/05/2024")
  /\ _parse_amount (lit "  03/05/2024 ") = _parse_amount (lit "03/05/2024")
  /\ _parse_date false (lit "  ") = None
  /\ _parse_amount (lit "  ") = None.
Proof.
  apply (cells_read_without_surrounding_space false (lit "  ") (lit "03/05/2024")
           (lit " ")); reflexivity.
Defined.

(** ** The column found is a column of the row *)

Lemma first_some_some {A B} (f : A -> option B) l y :
  first_some f l = Some y -> exists x, In x l /\ f x = Some y.
Proof.
  induction l as [|a l IH]; cbn [first_some]; [done |].
  destruct (f a) as [b|] eqn:E.
  - intros [= <-]. exists a. split; [by left | done].
  - intros H. destruct (IH H) as (x & ? & ?). exists x. split; [by right | done].
Qed.

Lemma last_named_some x keys k :
  last_named x keys = Some k -> In k keys /\ norm k = x.
Proof.
  unfold last_named. intros H. apply find_some in H as [Hin Hk].
  split; [by apply in_rev | by apply str_eqb_eq].
Qed.

Lemma find_column_in_keys keys candidates k :
  _find_column keys candidates = Some k ->
  In k keys
  /\ exists c, In c candidates
       /\ (norm k = lower c
           \/ exists kf, In kf keys /\ norm k = norm kf
                /\ contains (squash c) (squash (norm kf)) = true).
Proof.
  unfold _find_column. rewrite exact_pass_spec, partial_pass_spec.
  destruct (first_some (fun c => last_named (lower c) keys) candidates) as [k0|] eqn:E.
  - intros [= ->]. apply first_some_some in E as (c & Hc & Hl).
    apply last_named_some in Hl as [Hin Hn].
    split; [done |]. exists c. split; [done | by left].
  - intros H. apply first_some_some in H as (c & Hc & Hl).
    destruct (first_containing c keys) as [kf|] eqn:F; [| done].
    apply last_named_some in Hl as [Hin Hn].
    apply find_some in F as [Hkf Hcont].
    split; [done |]. exists c. split; [done |]. right. by exists kf.
Qed.

(** X17. The column [_find_column] answers with is one of the columns of the
    row, and its trimmed, lowercased name is an alias in lower case or the
    name of a column that contains an alias once blanks and periods are
    removed. *)
Theorem find_column_answers_with_a_column :
  forall keys candidates k,
    _find_column keys candidates = Some k ->
    In k keys
    /\ exists c, In c candidates
         /\ (norm k = lower c
             \/ exists kf, In kf keys /\ norm k = norm kf
                  /\ contains (squash c) (squash (norm kf)) = true).
Proof. exact find_column_in_keys. Qed.

Lemma find_column_answers_with_a_column_witness :
  In (lit " Order Date ") [lit "Order ID"; lit " Order Date "; lit "Total"].
Proof.
  apply (proj1 (find_column_answers_with_a_column
                  [lit "Order ID"; lit " Order Date "; lit "Total"]
                  (map lit ["order.date"; "order date"]%string)
                  (lit " Order Date ") ltac:(by vm_compute))).
Defined.

(** ** The keyword table *)

Lemma starts_with_app_l p q s :
  starts_with (p ++ q) s = true -> starts_with p s = true.
Proof.
  revert s. induction p as [|a p IH]; intros s; [done |].
  destruct s as [|b s]; cbn [app starts_with]; [done |].
  rewrite !andb_true_iff. intros [? ?]. split; [done | by apply IH].
Qed.

Lemma contains_app_l p q s : contains (p ++ q) s = true -> contains p s = true.
Proof.
  induction s as [|b s IH]; cbn [contains]; rewrite !orb_true_iff.
  - intros [H | H]; [left; by apply (starts_with_app_l p q) | done].
  - intros [H | H]; [left; by apply (starts_with_app_l p q) | right; by apply IH].
Qed.

Lemma categorize_rules_default rules m :
  (forall cat kws, In (cat, kws) rules -> cat <> DEFAULT_CATEGORY) ->
  categorize_rules rules m = DEFAULT_CATEGORY <->
  forall cat kws kw, In (cat, kws) rules -> In kw kws ->
                     contains (lower kw) m = false.
Proof.
  induction rules as [|[cat kws] rules IH]; intros Hne; [by split |].
  cbn [categorize_rules].
  destruct (existsb (fun kw => contains (lower kw) m) kws) eqn:E.
  - split.
    + intros Hc. exfalso. by apply (Hne cat kws (or_introl eq_refl)).
    + intros H. apply existsb_exists in E as (kw & Hkw & Hc).
      by rewrite (H cat kws kw (or_introl eq_refl) Hkw) in Hc.
  - rewrite IH by (intros c k Hin; apply (Hne c k); by right). split.
    + intros H c k kw [[= <- <-] | Hin] Hkw; [| by apply (H c k)].
      destruct (contains (lower kw) m) eqn:Ec; [| done].
      assert (existsb (fun kw => contains (lower kw) m) kws = true); [| congruence].
      apply existsb_exists. eauto.
    + intros H c k kw Hin Hkw. apply (H c k); [by right | done].
Qed.

Lemma categorize_rules_range rules m :
  In (categorize_rules rules m) (DEFAULT_CATEGORY :: map fst rules).
Proof.
  induction rules as [|[cat kws] rules IH]; cbn [categorize_rules map fst];
    [by left |].
  destruct (existsb _ kws); [right; by left |].
  destruct IH as [H | H]; [by left | right; by right].
Qed.

(** X18. The category of a memo is the default exactly when the lowercased
    memo contains none of the keywords, and is otherwise one of the nine
    categories of the table. Each keyword, taken as a memo, gives its own
    category, but for "baby wash": a memo containing it contains "baby" and
    is put under Kids Supplies, never under Personal Care on its account. *)
Theorem categorize_by_keyword_table :
  forall memo,
    (_categorize memo = DEFAULT_CATEGORY <->
     forall cat kws kw, In (cat, kws) CATEGORY_KEYWORDS -> In kw kws ->
                        contains kw (lower memo) = false)
    /\ In (_categorize memo) (DEFAULT_CATEGORY :: map fst CATEGORY_KEYWORDS)
    /\ (forall cat kws kw, In (cat, kws) CATEGORY_KEYWORDS -> In kw kws ->
          kw <> dead_keyword -> _categorize kw = cat)
    /\ (contains dead_keyword (lower memo) = true ->
        _categorize memo = lit "Kids Supplies").
Proof.
  intros memo.
  assert (Hlow : forall cat kws kw, In (cat, kws) CATEGORY_KEYWORDS -> In kw kws ->
                                    lower kw = kw).
  { assert (H : forallb (fun ck => forallb (fun kw => str_eqb (lower kw) kw) ck.2)
                  CATEGORY_KEYWORDS = true) by by vm_compute.
    intros cat kws kw Hin Hkw. rewrite forallb_forall in H.
    specialize (H _ Hin). cbn [snd] in H. rewrite forallb_forall in H.
    by apply str_eqb_eq, H. }
  split; [| split; [apply categorize_rules_range | split]].
  - unfold _categorize. rewrite categorize_rules_default.
    + split; intros H cat kws kw Hin Hkw.
      * rewrite <- (Hlow cat kws kw Hin Hkw). by apply (H cat kws).
      * rewrite (Hlow cat kws kw Hin Hkw). by apply (H cat kws).
    + assert (H : forallb (fun ck => negb (str_eqb ck.1 DEFAULT_CATEGORY))
                    CATEGORY_KEYWORDS = true) by by vm_compute.
      intros cat kws Hin ->. rewrite forallb_forall in H.
      specialize (H _ Hin). cbn [fst] in H.
      by rewrite (proj2 (str_eqb_eq DEFAULT_CATEGORY DEFAULT_CATEGORY) eq_refl) in H.
  - assert (H : forallb (fun ck =>
                  forallb (fun kw => str_eqb kw dead_keyword
                                     || str_eqb (_categorize kw) ck.1) ck.2)
                  CATEGORY_KEYWORDS = true) by by vm_compute.
    intros cat kws kw Hin Hkw Hne. rewrite forallb_forall in H.
    specialize (H _ Hin). cbn [fst snd] in H. rewrite forallb_forall in H.
    specialize (H _ Hkw). apply orb_true_iff in H as [H | H]; apply str_eqb_eq in H; done.
  - intros Hc. apply (contains_app_l (lit "baby") (lit " wash")) in Hc.
    unfold _categorize.
    change CATEGORY_KEYWORDS
      with ((lit "Kids Supplies",
             map lit ["kid"; "baby"; "toddler"; "diaper"; "crib"; "stroller";
                      "book"; "toy"; "magnetic tiles"; "pat-a-cake"; "oobleck";
                      "bartholomew"]%string) :: tl CATEGORY_KEYWORDS).
    cbn [categorize_rules].
    replace (existsb _ _) with true; [done |].
    symmetry. apply existsb_exists. exists (lit "baby").
    split; [right; by left | exact Hc].
Qed.

Lemma categorize_by_keyword_table_witness :
  _categorize (lit "Gentle Baby Wash 500ml") = lit "Kids Supplies".
Proof.
  apply (proj2 (proj2 (proj2 (categorize_by_keyword_table
                                (lit "Gentle Baby Wash 500ml"))))).
  by vm_compute.
Defined.

(** ** The shape of the converter's date *)

Lemma re_search_in {A} (p : re A) s a :
  re_search p s = Some a -> exists s' r, In (a, r) (p s').
Proof.
  induction s as [|c s IH]; cbn [re_search].
  - destruct (p []) as [|[a0 r0] l] eqn:E; [done |].
    intros [= <-]. exists [], r0. rewrite E. by left.
  - destruct (p (c :: s)) as [|[a0 r0] l] eqn:E; [exact IH |].
    intros [= <-]. exists (c :: s), r0. rewrite E. by left.
Qed.

Lemma re_digits2_in g s r :
  In (g, r) (re_digits2 s) -> exists a b, g = [a; b] /\ is_digit a && is_digit b = true.
Proof.
  unfold re_digits2, re_two. repeat setoid_rewrite re_bind_in.
  intros (a & s1 & Ha & b & s2 & Hb & Hr).
  apply re_char_in in Ha as [_ Ha], Hb as [_ Hb].
  apply re_ret_in in Hr as [-> _]. exists a, b. by rewrite Ha, Hb.
Qed.

Lemma re_digits12_in g s r :
  In (g, r) (re_digits12 s) ->
  exists a b, zfill 2 g = [a; b] /\ is_digit a && is_digit b = true.
Proof.
  unfold re_digits12, re_alts. cbn [flat_map]. rewrite app_nil_r.
  intros H. apply in_app_or in H as [H | H].
  - destruct (re_digits2_in g s r H) as (a & b & -> & Hd). by exists a, b.
  - unfold re_one in H. apply re_bind_in in H as (a & s1 & Ha & Hr).
    apply re_char_in in Ha as [_ Ha]. apply re_ret_in in Hr as [-> _].
    exists "0"%char, a. by rewrite Ha.
Qed.

Lemma date_fallback_shaped s t :
  date_fallback s = Some t -> date_shaped t /\ List.length t = 10%nat.
Proof.
  unfold date_fallback.
  destruct (re_search re_iso_like s) as [[[g1 g2] g3]|] eqn:E1.
  - intros [= <-]. apply re_search_in in E1 as (s' & r & H).
    unfold re_iso_like in H.
    apply re_bind_in in H as (a & s1 & Ha & H).
    apply re_bind_in in H as (? & s2 & _ & H).
    apply re_bind_in in H as (b & s3 & Hb & H).
    apply re_bind_in in H as (? & s4 & _ & H).
    apply re_bind_in in H as (c & s5 & Hc & Hr).
    apply re_ret_in in Hr as [[= -> -> ->] _].
    apply re_Y_in in Ha as (_ & Hl & Hd).
    apply re_digits2_in in Hb as (m1 & m2 & -> & Hm).
    apply re_digits2_in in Hc as (d1 & d2 & -> & Hdd).
    split; [| rewrite length_app, Hl; reflexivity].
    exists a, m1, m2, d1, d2. split; [done |]. split; [| lia].
    rewrite forallb_app, Hd. cbn.
    apply andb_true_iff in Hm as [-> ->]. by apply andb_true_iff in Hdd as [-> ->].
  - destruct (re_search re_us_like s) as [[[g1 g2] g3]|] eqn:E2; [| done].
    intros [= <-]. apply re_search_in in E2 as (s' & r & H).
    unfold re_us_like in H.
    apply re_bind_in in H as (a & s1 & Ha & H).
    apply re_bind_in in H as (? & s2 & _ & H).
    apply re_bind_in in H as (b & s3 & Hb & H).
    apply re_bind_in in H as (? & s4 & _ & H).
    apply re_bind_in in H as (c & s5 & Hc & Hr).
    apply re_ret_in in Hr as [[= -> -> ->] _].
    apply re_Y_in in Hc as (_ & Hl & Hd).
    apply re_digits12_in in Ha as (m1 & m2 & -> & Hm).
    apply re_digits12_in in Hb as (d1 & d2 & -> & Hdd).
    split; [| rewrite length_app, Hl; reflexivity].
    exists c, m1, m2, d1, d2. split; [done |]. split; [| lia].
    rewrite forallb_app, Hd. cbn.
    apply andb_true_iff in Hm as [-> ->]. by apply andb_true_iff in Hdd as [-> ->].
Qed.

Lemma year_str_digits pad y :
  1 <= y <= 9999 ->
  forallb is_digit (year_str pad y) = true
  /\ (1 <= List.length (year_str pad y) <= 4)%nat
  /\ (pad = true -> List.length (year_str pad y) = 4%nat).
Proof.
  intros Hy. unfold year_str.
  assert (D : forall k, 0 <= k <= 9 -> is_digit (digit_char k) = true)
    by (intros k Hk; by apply digit_char_facts).
  destruct (pad || (1000 <=? y)) eqn:E.
  - destruct (zpad4_facts y ltac:(lia)) as (a & b & c & e & -> & Ha & Hb & Hc & He & _).
    cbn. rewrite Ha, Hb, Hc, He. repeat split; try done; lia.
  - apply orb_false_iff in E as [-> E]. apply Z.leb_gt in E.
    destruct (100 <=? y) eqn:E2; [| destruct (10 <=? y) eqn:E3].
    + apply Z.leb_le in E2. cbn.
      rewrite !D by (clear -Hy E E2; Z.div_mod_to_equations; lia).
      repeat split; try done; lia.
    + apply Z.leb_gt in E2. apply Z.leb_le in E3. cbn.
      rewrite !D by (clear -Hy E2 E3; Z.div_mod_to_equations; lia).
      repeat split; try done; lia.
    + apply Z.leb_gt in E3. cbn. rewrite D by lia. repeat split; try done; lia.
Qed.

Lemma strftime_ymd_shaped pad d :
  date_ok d = true ->
  date_shaped (strftime_ymd pad d)
  /\ (pad = true -> List.length (strftime_ymd pad d) = 10%nat).
Proof.
  destruct d as [y m dd]. unfold date_ok. cbn [year month day]. intros Hv.
  destruct (valid_date_range _ _ _ Hv) as (Hy & Hm & Hd).
  change (strftime_ymd pad (mkdate y m dd))
    with (year_str pad y ++ "-"%char :: zpad2 m ++ "-"%char :: zpad2 dd ++ []).
  rewrite app_nil_r.
  destruct (year_str_digits pad y Hy) as (Hyd & Hyl & Hpad).
  destruct (zpad2_facts m ltac:(lia)) as (m1 & m2 & -> & Hm1 & Hm2 & _).
  destruct (zpad2_facts dd ltac:(lia)) as (d1 & d2 & -> & Hd1 & Hd2 & _).
  split.
  - exists (year_str pad y), m1, m2, d1, d2. split; [done |]. split; [| done].
    rewrite forallb_app, Hyd. cbn. by rewrite Hm1, Hm2, Hd1, Hd2.
  - intros Hp. rewrite length_app, (Hpad Hp). reflexivity.
Qed.

(** X19. Whatever the cell, a date the converter returns has the shape
    [Y-MM-DD] in digits; the year has four digits, and the text ten
    characters, unless the date was read through a format, lies before the
    year 1000 and the C library writes such years unpadded. *)
Theorem converted_date_is_shaped :
  forall pad s t,
    _parse_date pad s = Some t ->
    date_shaped t
    /\ (List.length t = 10%nat
        \/ pad = false
           /\ exists d, first_format (strip s) date_formats = Some d
                        /\ year d < 1000).
Proof.
  intros pad s t. unfold _parse_date.
  destruct (is_blank s); [done |].
  destruct (first_format (strip s) date_formats) as [d|] eqn:E.
  - intros [= <-]. pose proof (first_format_valid _ _ _ E) as Hd.
    destruct (strftime_ymd_shaped pad d Hd) as (Hs & Hl).
    split; [done |].
    destruct pad; [left; by apply Hl |].
    destruct (Z.ltb_spec (year d) 1000) as [Hlt | Hge].
    + right. split; [done |]. by exists d.
    + left. rewrite strftime_ymd_iso by (right; lia). reflexivity.
  - intros Hf. apply date_fallback_shaped in Hf as [Hs Hl]. split; [done | by left].
Qed.

Lemma converted_date_is_shaped_witness :
  date_shaped (lit "2024-02-30")
  /\ (List.length (lit "2024-02-30") = 10%nat
      \/ false = false
         /\ exists d, first_format (strip (lit "Delivered 2/30/2024")) date_formats = Some d
                      /\ year d < 1000).
Proof.
  apply (converted_date_is_shaped false (lit "Delivered 2/30/2024")).
  by vm_compute.
Defined.

(** ** The row loop of the converter *)

Lemma contains_nil_r p : contains p [] = true -> p = [].
Proof. destruct p; [done |]. cbn. done. Qed.

Lemma norm_nil : norm [] = [].
Proof. reflexivity. Qed.

Lemma find_column_not_empty keys candidates :
  forallb (fun c => match squash c with [] => false | _ :: _ => true end
                    && match lower c with [] => false | _ :: _ => true end)
    candidates = true ->
  _find_column keys candidates <> Some [].
Proof.
  intros Hc Hf. apply find_column_in_keys in Hf as (_ & c & Hin & H).
  rewrite forallb_forall in Hc. specialize (Hc c Hin).
  apply andb_true_iff in Hc as [Hs Hl].
  destruct H as [H | (kf & _ & Hn & Hcont)].
  - rewrite norm_nil in H. by rewrite <- H in Hl.
  - rewrite <- Hn, norm_nil in Hcont. change (squash []) with (@nil ascii) in Hcont.
    apply contains_nil_r in Hcont. by rewrite Hcont in Hs.
Qed.

Lemma bind_columns_closed row :
  bind_columns row =
  match surplus row with
  | _ :: _ => Raised
  | [] =>
      match _find_column (keys_of row) DATE_COLUMNS,
            _find_column (keys_of row) AMOUNT_COLUMNS with
      | Some dc, Some ac => Ok (dc, ac, _find_column (keys_of row) MEMO_COLUMNS)
      | _, _ => SysExit
      end
  end.
Proof.
  unfold bind_columns, find_column_of, keys_of.
  destruct (surplus row); [| done].
  pose proof (find_column_not_empty (map fst (cells row)) DATE_COLUMNS
                ltac:(by vm_compute)) as Hd.
  pose proof (find_column_not_empty (map fst (cells row)) AMOUNT_COLUMNS
                ltac:(by vm_compute)) as Ha.
  destruct (cells row) as [|kv kvs] eqn:Ec; [by vm_compute |].
  cbv zeta. unfold col_or.
  destruct (_find_column (map fst (kv :: kvs)) DATE_COLUMNS) as [[|c dc]|] eqn:Ed;
    [done | |];
    destruct (_find_column (map fst (kv :: kvs)) AMOUNT_COLUMNS) as [[|c' ac]|] eqn:Ea;
    try done; cbn [falsy orb]; rewrite ?Ed, ?Ea; done.
Qed.

Lemma build_row_outcome nc pad cols row :
  build_row nc pad cols row =
  if memo_raises cols.2 row then Raised else Ok (record_of nc pad cols row).
Proof.
  unfold record_of, build_row, memo_raises, memo_of.
  destruct cols as [[dc ac] [mc|]]; cbn [snd]; cbv beta iota zeta.
  - by destruct (parse_date_cell pad (cell_of row dc)),
         (parse_amount_cell (cell_of row ac)).
  - destruct (surplus row); [| done].
    by destruct (parse_date_cell pad (cell_of row dc)),
         (parse_amount_cell (cell_of row ac)).
Qed.

Lemma convert_loop_bound nc pad cols rows : forall rows_out,
  convert_loop nc pad rows (Some cols) rows_out =
  if existsb (memo_raises cols.2) rows then Raised
  else Ok (rows_out ++ omap (record_of nc pad cols) rows).
Proof.
  induction rows as [|row rows IH]; intros rows_out.
  - cbn. by rewrite app_nil_r.
  - cbn [convert_loop existsb]. rewrite build_row_outcome.
    destruct (memo_raises cols.2 row); [done |]. cbn [orb omap list_omap].
    destruct (record_of nc pad cols row) as [r|]; rewrite IH;
      destruct (existsb _ rows); try done. by rewrite <- app_assoc.
Qed.

Lemma convert_closed_form nc pad first rest :
  convert nc pad (first :: rest) =
  match surplus first with
  | _ :: _ => Raised
  | [] =>
      match _find_column (keys_of first) DATE_COLUMNS,
            _find_column (keys_of first) AMOUNT_COLUMNS with
      | Some dc, Some ac =>
          let cols := (dc, ac, _find_column (keys_of first) MEMO_COLUMNS) in
          if existsb (memo_raises cols.2) rest then Raised
          else Ok (dedupe (omap (record_of nc pad cols) (first :: rest)))
      | _, _ => SysExit
      end
  end.
Proof.
  unfold convert. cbn [convert_loop]. rewrite bind_columns_closed.
  destruct (surplus first) eqn:Es; [| done].
  destruct (_find_column (keys_of first) DATE_COLUMNS) as [dc|]; [| done].
  destruct (_find_column (keys_of first) AMOUNT_COLUMNS) as [ac|]; [| done].
  cbv zeta. rewrite build_row_outcome.
  replace (memo_raises _ first) with false
    by (unfold memo_raises; rewrite Es; by destruct (_find_column _ MEMO_COLUMNS)).
  cbn [omap list_omap].
  destruct (record_of nc pad _ first) as [r|]; rewrite convert_loop_bound;
    by destruct (existsb _ rest).
Qed.

(** X20. The converter looks its three columns up in the first row alone and
    reads every row with them. Without rows it writes no record. A first
    line longer than the header raises an exception (the row then has the
    key [None]); when the first row has no date or no amount column the
    converter exits with an error. Otherwise, if no memo column was found
    and a later line is longer than the header, an exception is raised at
    that line; if not, the output is the deduplicated list of the records
    of the rows that parse. *)
Theorem convert_binds_columns_once :
  forall nc pad,
    convert nc pad [] = Ok []
    /\ forall first rest,
         convert nc pad (first :: rest) =
         match surplus first with
         | _ :: _ => Raised
         | [] =>
             match _find_column (keys_of first) DATE_COLUMNS,
                   _find_column (keys_of first) AMOUNT_COLUMNS with
             | Some dc, Some ac =>
                 let cols := (dc, ac, _find_column (keys_of first) MEMO_COLUMNS) in
                 if existsb (memo_raises cols.2) rest then Raised
                 else Ok (dedupe (omap (record_of nc pad cols) (first :: rest)))
             | _, _ => SysExit
             end
         end.
Proof.
  intros nc pad. split; [done |]. apply convert_closed_form.
Qed.

Lemma parse_date_shaped pad s t : _parse_date pad s = Some t -> date_shaped t.
Proof.
  unfold _parse_date. destruct (is_blank s); [done |].
  destruct (first_format (strip s) date_formats) as [d|] eqn:E.
  - intros [= <-]. by apply strftime_ymd_shaped, (first_format_valid _ _ _ E).
  - intros Hf. by apply date_fallback_shaped in Hf as [Hs _].
Qed.

Lemma date_shaped_length t : date_shaped t -> (6 <= List.length t <= 10)%nat.
Proof.
  intros (ys & m1 & m2 & d1 & d2 & -> & _ & Hl). rewrite length_app. cbn. lia.
Qed.

Lemma omap_length_le {A B} (f : A -> option B) l :
  (List.length (omap f l) <= List.length l)%nat.
Proof.
  induction l as [|x l IH]; [done |]. cbn. destruct (f x); cbn; lia.
Qed.

Lemma memo_of_length row mc ms :
  memo_of row mc = Ok ms -> (List.length ms <= 500)%nat.
Proof.
  unfold memo_of. destruct mc as [col|].
  - intros H.
    assert (Hms : ms = slice_to 500 (strip (default [] (cell_of row col))))
      by congruence.
    rewrite Hms. unfold slice_to. rewrite length_take. lia.
  - destruct (surplus row); [| done]. intros [= <-]. cbn. lia.
Qed.

Lemma record_of_fields nc pad cols row r :
  record_of nc pad cols row = Some r ->
  exists ms,
    memo_of row cols.2 = Ok ms
    /\ parse_date_cell pad (cell_of row cols.1.1) = Some (Date r)
    /\ Payee r = PAYEE
    /\ Memo r = (match ms with
                 | [] => lit "Order " ++ Date r
                 | m => m
                 end)
    /\ Category r = (if nc then [] else _categorize ms).
Proof.
  unfold record_of, build_row. destruct cols as [[dc ac] mc]. cbn [fst snd].
  cbv beta iota zeta.
  destruct (memo_of row mc) as [ms| |]; [| done | done].
  destruct (parse_date_cell pad (cell_of row dc)) as [t|]; [| done].
  destruct (parse_amount_cell (cell_of row ac)) as [x|]; [| done].
  intros [= <-]. exists ms. cbn [Date Payee Memo Category].
  split; [done |]. split; [done |]. split; [done |]. split; [| done].
  by destruct ms.
Qed.

(** X21. Every record the converter writes has a date of the shape [Y-MM-DD],
    the fixed payee, a memo that is not empty and has at most 500
    characters, and a category that is empty when categories are switched
    off and else the default or one of the table. No record has a key that
    compares equal to the key of an earlier record, so the records whose
    amount is not NaN have pairwise different keys (records with a NaN
    amount, as from a total that reads nan, are all written). There are no
    more records than rows. *)
Theorem converted_records_well_formed :
  forall nc pad rows out,
    convert nc pad rows = Ok out ->
    (forall r, In r out ->
       date_shaped (Date r)
       /\ Payee r = PAYEE
       /\ Memo r <> [] /\ (List.length (Memo r) <= 500)%nat
       /\ (nc = true -> Category r = [])
       /\ (nc = false ->
           In (Category r) (DEFAULT_CATEGORY :: map fst CATEGORY_KEYWORDS)))
    /\ (forall pre r post, out = pre ++ r :: post ->
          forall r', In r' pre ->
            key_eqb (row_key r) (row_key r') = false
            /\ (amount_is_nan (Amount r) = false -> row_key r <> row_key r'))
    /\ (List.length out <= List.length rows)%nat.
Proof.
  intros nc pad rows out Hc.
  destruct rows as [|first rest].
  { injection Hc as <-. split; [by intros r [] |]. split; [| done].
    intros pre r post H. by destruct pre. }
  rewrite convert_closed_form in Hc.
  destruct (surplus first); [| done].
  destruct (_find_column (keys_of first) DATE_COLUMNS) as [dc|]; [| done].
  destruct (_find_column (keys_of first) AMOUNT_COLUMNS) as [ac|]; [| done].
  cbv zeta in Hc.
  set (cols := (dc, ac, _find_column (keys_of first) MEMO_COLUMNS)) in Hc.
  destruct (existsb (memo_raises cols.2) rest); [done |].
  set (built := omap (record_of nc pad cols) (first :: rest)) in Hc.
  assert (Hout : out = dedupe built) by congruence.
  clear Hc. subst out.
  split; [| split].
  - intros r Hr. apply dedupe_in in Hr.
    apply list_elem_of_In, list_elem_of_omap in Hr as (row & _ & Hb).
    apply record_of_fields in Hb as (ms & Hms & Hd & Hp & Hm & Hcat).
    assert (Hsh : date_shaped (Date r)).
    { destruct (cell_of row cols.1.1) as [cell|]; [| done].
      by apply (parse_date_shaped pad cell). }
    pose proof (date_shaped_length _ Hsh) as Hl.
    pose proof (memo_of_length _ _ _ Hms) as Hlen.
    split; [done |]. split; [done |].
    assert (Hmemo : Memo r <> [] /\ (List.length (Memo r) <= 500)%nat).
    { rewrite Hm. destruct ms as [|c m].
      - split; [done |]. rewrite length_app. cbn. lia.
      - by split. }
    destruct Hmemo as [Hne Hlen']. split; [done |]. split; [done |].
    split; [by intros -> |].
    intros ->. rewrite Hcat. apply categorize_rules_range.
  - intros pre r post Heq r' Hr'.
    pose proof (dedupe_distinct built pre r post Heq r' Hr') as Hk.
    split; [done |]. intros Hn Hkey. rewrite <- Hkey in Hk.
    by rewrite key_eqb_refl in Hk.
  - transitivity (List.length built).
    + apply sublist_length, dedupe_sublist.
    + unfold built. apply omap_length_le.
Qed.

Lemma converted_records_well_formed_witness :
  exists out,
    convert false false rows_example = Ok out
    /\ (List.length out <= List.length rows_example)%nat.
Proof.
  destruct (convert false false rows_example) as [out| |] eqn:E;
    [| by vm_compute in E | by vm_compute in E].
  exists out. split; [done |].
  apply (converted_records_well_formed false false rows_example out E).
Defined.

(** ** The number the fetch reports *)




(** ** The category warnings *)

Lemma category_name_not_empty row : category_name_of row <> [].
Proof.
  unfold category_name_of. destruct (row_text row "Category"); [| done].
  assert (H : forallb (fun kv => match kv.2 with [] => false | _ :: _ => true end)
                CATEGORY_MAPPING = true) by by vm_compute.
  generalize (lower (row_text row "Payee")). intros p.
  induction CATEGORY_MAPPING as [|[k v] l IH]; [done |].
  cbn [forallb] in H. apply andb_true_iff in H as [Hv Hl].
  cbn [dict_get]. destruct (str_eqb k p); [by destruct v | by apply IH].
Qed.

Lemma classify_warnings_fold tol cmap cands : forall st,
  warnings (fold_left (classify_step tol cmap) cands st)
  = warnings st ++ omap (category_warning tol cmap (existing_by_amount st)) cands.
Proof.
  induction cands as [|c cands IH]; intros st; [cbn; by rewrite app_nil_r |].
  cbn [fold_left]. rewrite IH, classify_step_index.
  cbn [omap list_omap]. unfold category_warning at 2.
  unfold classify_step, cand_dup. destruct c as [[d a] row]. cbn [fst snd].
  destruct (is_duplicate tol (existing_by_amount st) d a); cbn [warnings]; [done |].
  unfold make_tx. cbn [nt_category_id].
  pose proof (category_name_not_empty row) as Hne.
  destruct (category_name_of row) as [|n0 n] eqn:En; [done |].
  rewrite <- app_assoc.
  by destruct (category_id_of cmap row) as [[|? ?]|].
Qed.

(** X23. The category name of a row is never empty, so the run warns about
    every transaction it puts into the batch without a category identifier,
    once each and in the order of the rows, and about no other row. *)
Theorem every_unmatched_category_warned :
  forall tol cmap (idx : gmap Z (list date)) (cands : list candidate),
    (forall row, category_name_of row <> [])
    /\ warnings (classify tol cmap idx cands)
       = omap (category_warning tol cmap idx) cands.
Proof.
  intros tol cmap idx cands. split; [apply category_name_not_empty |].
  apply (classify_warnings_fold tol cmap cands (mkloop idx [] 0%nat [])).
Qed.
